(** * Polaris catalog API client: a shallow embedding and its properties

    The program under study is [polaris_api_client.py]: a flat sequence of
    functions, each of which builds a URL and a payload, sends one HTTP
    request through the [requests] library, prints what it received and
    returns the parsed JSON body or [None].

    The embedding has three layers:
    - the values the program handles (parsed JSON, i.e. Python's [None],
      [bool], [int], [float], [str], [list], [dict]) together with the
      Python operations the program applies to them (subscript, [.get],
      [len], iteration, [==], truthiness);
    - the effects: console output, HTTP requests sent to a server, and
      exceptions, as a state-and-error monad;
    - the functions of the source file, one definition per function, with
      the names of the source. *)

From Stdlib Require Import ZArith List String Ascii Bool Lia.
From Stdlib Require Import Floats.SpecFloat.
Import ListNotations.

Local Open Scope string_scope.
Local Open Scope Z_scope.

(** ** Parsed JSON values

    [response.json()] produces Python objects.  A [dict] keeps the insertion
    order of its keys (iteration follows it), so it is an association list;
    a Python [str] is a [string], one character per element. *)

#[local] Set Warnings "-register-all".

Inductive json : Type :=
| JNull
| JBool (b : bool)
| JInt (z : Z)
| JFloat (f : spec_float)
| JStr (s : string)
| JList (l : list json)
| JDict (d : list (string * json)).

(** Python's [None]: the "no result" value of the program, and also what
    the JSON literal [null] parses to. *)
Definition None_ : json := JNull.

Module Py.

(** Exceptions the program can meet.  All of them derive from
    [Exception]; [KeyError] is the only [LookupError] among them. *)
Inductive exn : Type :=
| KeyError (key : string)
| TypeError
| AttributeError
| JSONDecodeError
| HTTPError (status : Z)
| ConnectionError (msg : string).

Definition is_lookup_error (e : exn) : bool :=
  match e with KeyError _ => true | _ => false end.

(** Result of evaluating an expression: a value or a raised exception. *)
Inductive result (A : Type) : Type :=
| Ok (a : A)
| Raise (e : exn).
Arguments Ok {A} a.
Arguments Raise {A} e.

(** [d.get(k)] on the association list: the first binding of [k]. *)
Fixpoint lookup (k : string) (d : list (string * json)) : option json :=
  match d with
  | [] => None
  | (k', v) :: d' => if String.eqb k k' then Some v else lookup k d'
  end.

(** [x[k]] with a string key.  Only a [dict] accepts it; a missing key is
    a [KeyError], any other receiver a [TypeError]. *)
Definition getitem (x : json) (k : string) : result json :=
  match x with
  | JDict d =>
      match lookup k d with
      | Some v => Ok v
      | None => Raise (KeyError k)
      end
  | _ => Raise TypeError
  end.

(** [x.get(k, default)]: only a [dict] has the method. *)
Definition get (x : json) (k : string) (default : json) : result json :=
  match x with
  | JDict d =>
      match lookup k d with
      | Some v => Ok v
      | None => Ok default
      end
  | _ => Raise AttributeError
  end.

(** The characters of a string, each as a one-character string. *)
Fixpoint chars (s : string) : list json :=
  match s with
  | EmptyString => []
  | String c s' => JStr (String c EmptyString) :: chars s'
  end.

(** [len(x)]. *)
Definition len (x : json) : result Z :=
  match x with
  | JList l => Ok (Z.of_nat (List.length l))
  | JDict d => Ok (Z.of_nat (List.length d))
  | JStr s => Ok (Z.of_nat (String.length s))
  | _ => Raise TypeError
  end.

(** [iter(x)], as the list of the items a [for] loop visits: the elements
    of a list, the keys of a dict, the characters of a string. *)
Definition iter (x : json) : result (list json) :=
  match x with
  | JList l => Ok l
  | JDict d => Ok (map (fun kv => JStr (fst kv)) d)
  | JStr s => Ok (chars s)
  | _ => Raise TypeError
  end.

(** Truthiness, as used by [properties or {}]. *)
Definition truthy (x : json) : bool :=
  match x with
  | JNull => false
  | JBool b => b
  | JInt z => negb (z =? 0)
  | JFloat (S754_zero _) => false
  | JFloat _ => true
  | JStr s => negb (String.eqb s "")
  | JList l => match l with [] => false | _ => true end
  | JDict d => match d with [] => false | _ => true end
  end.

(** [a or b]. *)
Definition or_ (a b : json) : json := if truthy a then a else b.

(** *** Equality ([==])

    Numbers compare by mathematical value across [bool], [int] and
    [float]; an [int] and a [float] are compared exactly. *)

Definition Z_of_bool (b : bool) : Z := if b then 1 else 0.

Definition int_eq_float (z : Z) (f : spec_float) : bool :=
  match f with
  | S754_zero _ => z =? 0
  | S754_infinity _ => false
  | S754_nan => false
  | S754_finite s m e =>
      let v := if s then Z.neg m else Z.pos m in
      if 0 <=? e then z =? v * 2 ^ e else z * 2 ^ (- e) =? v
  end.

Definition is_nan (x : json) : bool :=
  match x with JFloat S754_nan => true | _ => false end.

(** Inside a container two items are equal when they are the same object
    or compare equal; every [NaN] of a parsed body is the one constant of
    the decoder, so the identity test succeeds exactly on two [NaN]s (on
    everything else [==] is already reflexive). *)
Fixpoint equal (x y : json) {struct x} : bool :=
  match x, y with
  | JNull, JNull => true
  | JBool a, JBool b => Bool.eqb a b
  | JBool a, JInt z => Z_of_bool a =? z
  | JBool a, JFloat f => int_eq_float (Z_of_bool a) f
  | JInt z, JBool b => z =? Z_of_bool b
  | JInt a, JInt b => a =? b
  | JInt z, JFloat f => int_eq_float z f
  | JFloat f, JBool b => int_eq_float (Z_of_bool b) f
  | JFloat f, JInt z => int_eq_float z f
  | JFloat a, JFloat b => SFeqb a b
  | JStr a, JStr b => String.eqb a b
  | JList a, JList b =>
      (fix list_eq (a b : list json) {struct a} : bool :=
         match a, b with
         | [], [] => true
         | u :: a', v :: b' =>
             (is_nan u && is_nan v || equal u v) && list_eq a' b'
         | _, _ => false
         end) a b
  | JDict a, JDict b =>
      (List.length a =? List.length b)%nat &&
      (fix dict_le (a : list (string * json)) {struct a} : bool :=
         match a with
         | [] => true
         | (k, u) :: a' =>
             match lookup k b with
             | Some v => (is_nan u && is_nan v || equal u v) && dict_le a'
             | None => false
             end
         end) a
  | _, _ => false
  end.

End Py.

(** ** Console output

    A printed line is kept as the pieces of the f-string (or of the argument
    list of [print]) that produced it: literal text, and formatted values.
    How [str()] renders a value is left symbolic. *)

Inductive frag : Type :=
| Lit (s : string)
| Val (v : json)
| Err (e : Py.exn).

Definition fstring : Type := list frag.

(** The newline character of ["\n"]. *)
Definition NL : string := String (ascii_of_nat 10) EmptyString.

(** ** The world: what was sent and what was printed, oldest first *)

Module Requests.

Inductive verb : Type := GET | POST.

(** [data=] sends a form, [json=] a JSON document, a GET sends nothing. *)
Inductive payload : Type :=
| NoBody
| Data (form : list (string * string))
| Json (j : json).

Record request : Type := mkRequest {
  method : verb;
  url : string;
  headers : list (string * fstring);
  body : payload
}.

(** A response as the program observes it: [r.status_code], [r.text], and
    the outcome of [r.json()], [None] when the text is not JSON. *)
Record response : Type := mkResponse {
  status_code : Z;
  text : string;
  parsed : option json
}.

End Requests.

Import Py.
Import Requests.

Record world : Type := mkWorld {
  sent : list request;
  stdout : list fstring
}.

Definition empty_world : world := {| sent := []; stdout := [] |}.

(** ** The monad of the program: state (the world) and exceptions *)

Definition M (A : Type) : Type := world -> world * result A.

Definition ret {A} (a : A) : M A := fun w => (w, Ok a).

Definition bind {A B} (m : M A) (k : A -> M B) : M B :=
  fun w =>
    match m w with
    | (w', Ok a) => k a w'
    | (w', Raise e) => (w', Raise e)
    end.

Definition raise {A} (e : exn) : M A := fun w => (w, Raise e).

Definition lift {A} (r : result A) : M A := fun w => (w, r).

Declare Scope py_scope.
Delimit Scope py_scope with py.
Notation "x <- m ;; k" := (bind m (fun x => k))
  (at level 61, m at next level, right associativity) : py_scope.
Notation "m ;; k" := (bind m (fun _ => k))
  (at level 61, right associativity) : py_scope.
Local Open Scope py_scope.

(** [try: body except Exception as e: handler(e)]; every exception of the
    model derives from [Exception]. *)
Definition try_except {A} (body : M A) (handler : exn -> M A) : M A :=
  fun w =>
    match body w with
    | (w', Ok a) => (w', Ok a)
    | (w', Raise e) => handler e w'
    end.

(** [print(...)]. *)
Definition print (line : fstring) : M unit :=
  fun w => ({| sent := sent w; stdout := stdout w ++ [line] |}, Ok tt).

(** [for x in xs: body(x)] over the items already produced by [iter]. *)
Fixpoint for_ {A} (xs : list A) (body : A -> M unit) : M unit :=
  match xs with
  | [] => ret tt
  | x :: xs' => body x ;; for_ xs' body
  end.

(** [enumerate(xs)], counting from [i]. *)
Fixpoint enumerate_from {A} (i : Z) (xs : list A) : list (Z * A) :=
  match xs with
  | [] => []
  | x :: xs' => (i, x) :: enumerate_from (i + 1) xs'
  end.

Definition enumerate {A} (xs : list A) : list (Z * A) := enumerate_from 0 xs.

(** Subscript, [.get], [len] and [iter] inside the monad. *)
Definition sub (x : json) (k : string) : M json := lift (getitem x k).
Definition get_ (x : json) (k : string) (default : json) : M json :=
  lift (get x k default).
Definition len_ (x : json) : M Z := lift (len x).
Definition iter_ (x : json) : M (list json) := lift (iter x).

(** [response.json()]. *)
Definition response_json (r : response) : M json :=
  match parsed r with
  | Some j => ret j
  | None => raise JSONDecodeError
  end.

(** [response.raise_for_status()]: the library raises [HTTPError] for the
    client and server error classes, 400 to 599, and returns otherwise. *)
Definition is_error_status (s : Z) : bool := (400 <=? s) && (s <? 600).

Definition raise_for_status (r : response) : M unit :=
  if is_error_status (status_code r) then raise (HTTPError (status_code r))
  else ret tt.

(** ** The program

    The three settings read from the environment when the module is loaded
    are strings; the server is whatever answers the requests: it sees the
    requests sent so far, the current one last, and either answers or makes
    [requests.get] / [requests.post] raise (connection refused, timeout). *)

Section Client.

Variable POLARIS_HOST : string.
Variable CLIENT_ID : string.
Variable CLIENT_SECRET : string.
Variable server : list request -> result response.

Definition send (rq : request) : M response :=
  fun w =>
    let w' := {| sent := sent w ++ [rq]; stdout := stdout w |} in
    (w', server (sent w')).

(** [requests.get(url, headers=h)]. *)
Definition requests_get (u : string) (h : list (string * fstring))
  : M response :=
  send {| method := GET; url := u; headers := h; body := NoBody |}.

(** [requests.post(url, headers=h, data=d)] and
    [requests.post(url, headers=h, json=d)]. *)
Definition requests_post (u : string) (h : list (string * fstring))
    (p : payload) : M response :=
  send {| method := POST; url := u; headers := h; body := p |}.

Definition get_token : M json :=
  print [Lit "Getting authentication token..."] ;;
  let headers :=
    [("Content-Type", [Lit "application/x-www-form-urlencoded"])] in
  let form_data :=
    [("scope", "PRINCIPAL_ROLE:ALL");
     ("grant_type", "client_credentials");
     ("client_id", CLIENT_ID);
     ("client_secret", CLIENT_SECRET)] in
  let url := "http://" ++ POLARIS_HOST ++ "/api/catalog/v1/oauth/tokens" in
  response <- requests_post url headers (Data form_data) ;;
  raise_for_status response ;;
  body <- response_json response ;;
  token <- sub body "access_token" ;;
  print [Lit "Token: "; Val token] ;;
  ret token.

Definition get_headers (token : json) : list (string * fstring) :=
  [("Authorization", [Lit "Bearer "; Val token]);
   ("Content-Type", [Lit "application/json"])].

Definition list_catalogs (token : json) : M json :=
  print [Lit NL; Lit "Listing catalogs..."] ;;
  let url := "http://" ++ POLARIS_HOST ++ "/api/management/v1/catalogs" in
  response <- requests_get url (get_headers token) ;;
  print [Lit "Status: "; Val (JInt (status_code response))] ;;
  print [Lit "Response: "; Lit (text response)] ;;
  if status_code response =? 200 then
    data <- response_json response ;;
    print [Lit "Parsed JSON: "; Val data] ;;
    ret data
  else ret None_.

Definition list_namespaces (token : json) (catalog_name : string) : M json :=
  print [Lit NL; Lit "Listing namespaces in catalog '"; Lit catalog_name;
         Lit "'..."] ;;
  let url := "http://" ++ POLARIS_HOST ++ "/api/catalog/v1/" ++ catalog_name
             ++ "/namespaces" in
  response <- requests_get url (get_headers token) ;;
  print [Lit "Status: "; Val (JInt (status_code response))] ;;
  print [Lit "Response: "; Lit (text response)] ;;
  if status_code response =? 200 then
    data <- response_json response ;;
    print [Lit "Parsed JSON: "; Val data] ;;
    ret data
  else ret None_.

Definition list_tables (token : json) (catalog_name namespace_name : string)
  : M json :=
  print [Lit NL; Lit "Listing tables in namespace '"; Lit namespace_name;
         Lit "'..."] ;;
  let url := "http://" ++ POLARIS_HOST ++ "/api/catalog/v1/" ++ catalog_name
             ++ "/namespaces/" ++ namespace_name ++ "/tables" in
  response <- requests_get url (get_headers token) ;;
  print [Lit "Status: "; Val (JInt (status_code response))] ;;
  print [Lit "Response: "; Lit (text response)] ;;
  if status_code response =? 200 then
    data <- response_json response ;;
    print [Lit "Parsed JSON: "; Val data] ;;
    ret data
  else ret None_.

(** [response.status_code in [200, 201]]. *)
Definition created (status : Z) : bool := (status =? 200) || (status =? 201).

Definition create_catalog (token : json) (catalog_name : string)
    (base_location storage_config : json) : M json :=
  print [Lit NL; Lit "Creating catalog '"; Lit catalog_name; Lit "'..."] ;;
  let url := "http://" ++ POLARIS_HOST ++ "/api/management/v1/catalogs" in
  let data :=
    JDict [("type", JStr "INTERNAL");
           ("name", JStr catalog_name);
           ("properties",
            JDict [("default-base-location", base_location)]);
           ("storageConfigInfo", storage_config)] in
  response <- requests_post url (get_headers token) (Json data) ;;
  print [Lit "Status: "; Val (JInt (status_code response))] ;;
  print [Lit "Response: "; Lit (text response)] ;;
  if created (status_code response) then
    data <- response_json response ;;
    print [Lit "Created catalog successfully: "; Val data] ;;
    ret data
  else ret None_.

(** [properties=None] when the caller leaves it out. *)
Definition create_namespace (token : json)
    (catalog_name namespace_name : string) (properties : json) : M json :=
  print [Lit NL; Lit "Creating namespace '"; Lit namespace_name;
         Lit "' in catalog '"; Lit catalog_name; Lit "'..."] ;;
  let url := "http://" ++ POLARIS_HOST ++ "/api/catalog/v1/" ++ catalog_name
             ++ "/namespaces" in
  let data :=
    JDict [("namespace", JList [JStr namespace_name]);
           ("properties", or_ properties (JDict []))] in
  response <- requests_post url (get_headers token) (Json data) ;;
  print [Lit "Status: "; Val (JInt (status_code response))] ;;
  print [Lit "Response: "; Lit (text response)] ;;
  if created (status_code response) then
    data <- response_json response ;;
    print [Lit "Created namespace successfully: "; Val data] ;;
    ret data
  else ret None_.

Definition create_table (token : json)
    (catalog_name namespace_name table_name : string)
    (schema properties : json) : M json :=
  print [Lit NL; Lit "Creating table '"; Lit table_name;
         Lit "' in namespace '"; Lit namespace_name; Lit "'..."] ;;
  let url := "http://" ++ POLARIS_HOST ++ "/api/catalog/v1/" ++ catalog_name
             ++ "/namespaces/" ++ namespace_name ++ "/tables" in
  let data :=
    JDict [("name", JStr table_name);
           ("schema", schema);
           ("properties", or_ properties (JDict []))] in
  response <- requests_post url (get_headers token) (Json data) ;;
  print [Lit "Status: "; Val (JInt (status_code response))] ;;
  print [Lit "Response: "; Lit (text response)] ;;
  if created (status_code response) then
    data <- response_json response ;;
    print [Lit "Created table successfully: "; Val data] ;;
    ret data
  else ret None_.

(** Body of the loop over the fields of a schema (line 179). *)
Definition field_body (field : json) : M unit :=
  name <- sub field "name" ;;
  type <- sub field "type" ;;
  print [Lit "  - "; Val name; Lit " ("; Val type; Lit ")"].

(** Body of the loop over [enumerate(schemas)] (lines 177 to 179). *)
Definition schema_body (ischema : Z * json) : M unit :=
  let (i, schema) := ischema in
  schema_id <- sub schema "schema-id" ;;
  print [Lit NL; Lit "Schema "; Val (JInt i); Lit " (ID: "; Val schema_id;
         Lit "):"] ;;
  fields <- sub schema "fields" ;;
  fields <- iter_ fields ;;
  for_ fields field_body.

(** Body of the loop over the snapshots (lines 188 to 193). *)
Definition snapshot_body (current_snapshot_id snapshot : json) : M unit :=
  snapshot_id <- sub snapshot "snapshot-id" ;;
  print [Lit NL; Lit "Snapshot ID: "; Val snapshot_id] ;;
  timestamp <- sub snapshot "timestamp-ms" ;;
  print [Lit "  Timestamp: "; Val timestamp] ;;
  operation <- get_ snapshot "operation" (JStr "N/A") ;;
  print [Lit "  Operation: "; Val operation] ;;
  summary <- get_ snapshot "summary" (JDict []) ;;
  print [Lit "  Summary: "; Val summary] ;;
  snapshot_id <- sub snapshot "snapshot-id" ;;
  if equal snapshot_id current_snapshot_id
  then print [Lit "  ^ CURRENT SNAPSHOT"]
  else ret tt.

(** The traversal of a 200 body (lines 172 to 193). *)
Definition report (metadata : json) : M unit :=
  m <- sub metadata "metadata" ;;
  current_schema_id <- sub m "current-schema-id" ;;
  print [Lit "Current schema ID:"; Lit " "; Val current_schema_id] ;;
  m <- sub metadata "metadata" ;;
  schemas <- sub m "schemas" ;;
  n <- len_ schemas ;;
  print [Lit "Available schemas:"; Lit " "; Val (JInt n)] ;;
  m <- sub metadata "metadata" ;;
  schemas <- sub m "schemas" ;;
  schemas <- iter_ schemas ;;
  for_ (enumerate schemas) schema_body ;;
  m <- sub metadata "metadata" ;;
  snapshots <- sub m "snapshots" ;;
  m <- sub metadata "metadata" ;;
  current_snapshot_id <- sub m "current-snapshot-id" ;;
  print [Lit NL; Lit "Current snapshot ID: "; Val current_snapshot_id] ;;
  n <- len_ snapshots ;;
  print [Lit "Total snapshots: "; Val (JInt n)] ;;
  snapshots <- iter_ snapshots ;;
  for_ snapshots (snapshot_body current_snapshot_id).

Definition get_table_metadata (token : json)
    (catalog_name namespace_name table_name : string) : M json :=
  print [Lit NL; Lit "Getting metadata for table '"; Lit table_name;
         Lit "'..."] ;;
  let url := "http://" ++ POLARIS_HOST ++ "/api/catalog/v1/" ++ catalog_name
             ++ "/namespaces/" ++ namespace_name ++ "/tables/" ++ table_name
  in
  response <- requests_get url (get_headers token) ;;
  print [Lit "Status: "; Val (JInt (status_code response))] ;;
  if status_code response =? 200 then
    metadata <- response_json response ;;
    report metadata ;;
    ret metadata
  else
    print [Lit "Error: "; Lit (text response)] ;;
    ret None_.

Definition main : M unit :=
  let catalog_name := "polaris4" in
  let namespace_name := "polaris4_namespace" in
  let table_name := "customers" in
  try_except
    (token <- get_token ;;
     list_catalogs token ;;
     list_namespaces token catalog_name ;;
     list_tables token catalog_name namespace_name ;;
     get_table_metadata token catalog_name namespace_name table_name ;;
     ret tt)
    (fun e => print [Lit "Error: "; Err e]).

End Client.

(** ** Vocabulary of the properties *)

(** Running an operation: the value it returns (or the exception it
    raises), and the lines and requests it adds to the world. *)
Definition outcome {A} (m : M A) (w : world) : result A := snd (m w).
Definition printed {A} (m : M A) (w : world) : list fstring :=
  skipn (List.length (stdout w)) (stdout (fst (m w))).
Definition issued {A} (m : M A) (w : world) : list request :=
  skipn (List.length (sent w)) (sent (fst (m w))).

(** [m], run from [w], sends exactly one request and the server answers it
    with the response [r]. *)
Definition answered {A} (server : list request -> result response)
    (m : M A) (w : world) (r : response) : Prop :=
  exists rq, issued m w = [rq] /\ server (sent w ++ [rq])%list = Ok r.

(** Whatever the world and the server's answer, [m] sends exactly one
    request, and that request satisfies [P]. *)
Definition sends {A} (m : M A) (P : request -> Prop) : Prop :=
  forall w, exists rq, issued m w = [rq] /\ P rq.

(** The one request of [m] goes to a URL under [prefix]. *)
Definition addresses {A} (m : M A) (prefix : string) : Prop :=
  sends m (fun rq => String.prefix prefix (url rq) = true).

(** The keys of a dict, in order. *)
Definition keys (x : json) : list string :=
  match x with JDict d => map fst d | _ => [] end.

(** A computation that sends nothing: whatever the world, it appends the
    lines [out] and ends with [r]. *)
Definition prints {A} (m : M A) (out : list fstring) (r : result A) : Prop :=
  forall w, m w = ({| sent := sent w; stdout := stdout w ++ out |}, r).

(** The groups of operations the properties are stated for. *)
Definition list_operations (host : string)
    (server : list request -> result response) (token : json)
    (catalog_name namespace_name : string) : list (M json) :=
  [list_catalogs host server token;
   list_namespaces host server token catalog_name;
   list_tables host server token catalog_name namespace_name].

Definition create_operations (host : string)
    (server : list request -> result response) (token : json)
    (catalog_name namespace_name table_name : string)
    (base_location storage_config schema properties : json)
  : list (M json) :=
  [create_catalog host server token catalog_name base_location storage_config;
   create_namespace host server token catalog_name namespace_name properties;
   create_table host server token catalog_name namespace_name table_name
     schema properties].

(** The two path prefixes of the service. *)
Definition management_prefix (host : string) : string :=
  "http://" ++ host ++ "/api/management/v1/".
Definition catalog_prefix (host catalog_name : string) : string :=
  "http://" ++ host ++ "/api/catalog/v1/" ++ catalog_name ++ "/".

(** *** Shape of a table-metadata body *)

Definition has (k : string) (x : json) : bool :=
  match getitem x k with Ok _ => true | Raise _ => false end.

Definition field (k : string) (x : json) : json :=
  match getitem x k with Ok v => v | Raise _ => JNull end.

Definition iterable (x : json) : bool :=
  match iter x with Ok _ => true | Raise _ => false end.

Definition items (x : json) : list json :=
  match iter x with Ok l => l | Raise _ => [] end.

(** [x] is a dict without the key [k]. *)
Definition lacks (k : string) (x : json) : bool :=
  match x with
  | JDict d => match lookup k d with None => true | Some _ => false end
  | _ => false
  end.

Definition field_ok (f : json) : bool := has "name" f && has "type" f.

Definition schema_ok (s : json) : bool :=
  has "schema-id" s && has "fields" s && iterable (field "fields" s)
  && forallb field_ok (items (field "fields" s)).

Definition snapshot_ok (s : json) : bool :=
  has "snapshot-id" s && has "timestamp-ms" s.

Definition schemas_of (body : json) : list json :=
  items (field "schemas" (field "metadata" body)).
Definition snapshots_of (body : json) : list json :=
  items (field "snapshots" (field "metadata" body)).
Definition current_snapshot_id_of (body : json) : json :=
  field "current-snapshot-id" (field "metadata" body).

(** The part of the body read before the snapshots is as expected. *)
Definition schemas_ok (body : json) : bool :=
  let m := field "metadata" body in
  has "metadata" body && has "current-schema-id" m && has "schemas" m
  && iterable (field "schemas" m) && forallb schema_ok (schemas_of body).

(** The whole body is as expected: every key that is subscripted is there.
    Nothing is asked of [operation] and [summary]. *)
Definition metadata_ok (body : json) : bool :=
  let m := field "metadata" body in
  schemas_ok body && has "snapshots" m && has "current-snapshot-id" m
  && iterable (field "snapshots" m) && forallb snapshot_ok (snapshots_of body).

(** *** The report on a body: what is said of a schema and of a snapshot *)

Definition field_summary (f : json) : fstring :=
  [Lit "  - "; Val (field "name" f); Lit " ("; Val (field "type" f); Lit ")"].

Definition schema_header (i : Z) (s : json) : fstring :=
  [Lit NL; Lit "Schema "; Val (JInt i); Lit " (ID: ";
   Val (field "schema-id" s); Lit "):"].

Definition schema_summary (ischema : Z * json) : list fstring :=
  schema_header (fst ischema) (snd ischema)
  :: map field_summary (items (field "fields" (snd ischema))).

Definition or_default (k : string) (default s : json) : json :=
  if has k s then field k s else default.

Definition current_marker : fstring := [Lit "  ^ CURRENT SNAPSHOT"].

(** The snapshot's id equals the current one, in the sense of [==]. *)
Definition is_current (current s : json) : bool :=
  equal (field "snapshot-id" s) current.

Definition snapshot_summary (current s : json) : list fstring :=
  [[Lit NL; Lit "Snapshot ID: "; Val (field "snapshot-id" s)];
   [Lit "  Timestamp: "; Val (field "timestamp-ms" s)];
   [Lit "  Operation: "; Val (or_default "operation" (JStr "N/A") s)];
   [Lit "  Summary: "; Val (or_default "summary" (JDict []) s)]]
  ++ (if is_current current s then [current_marker] else []).

(** Recognising the lines of a report. *)
Definition is_schema_header (l : fstring) : bool :=
  match l with
  | [Lit _; Lit a; Val _; Lit _; Val _; Lit _] => String.eqb a "Schema "
  | _ => false
  end.

Definition is_snapshot_header (l : fstring) : bool :=
  match l with
  | [Lit _; Lit a; Val _] => String.eqb a "Snapshot ID: "
  | _ => false
  end.

Definition is_current_marker (l : fstring) : bool :=
  match l with
  | [Lit a] => String.eqb a "  ^ CURRENT SNAPSHOT"
  | _ => false
  end.

Definition count {A} (p : A -> bool) (l : list A) : nat :=
  List.length (filter p l).

(** Everything [report] prints on a body of the expected shape. *)
Definition report_lines (body : json) : list fstring :=
  ([[Lit "Current schema ID:"; Lit " ";
     Val (field "current-schema-id" (field "metadata" body))];
    [Lit "Available schemas:"; Lit " ";
     Val (JInt (Z.of_nat (List.length (schemas_of body))))]]
   ++ List.concat (map schema_summary (enumerate (schemas_of body)))
   ++ [[Lit NL; Lit "Current snapshot ID: ";
        Val (current_snapshot_id_of body)];
       [Lit "Total snapshots: ";
        Val (JInt (Z.of_nat (List.length (snapshots_of body))))]]
   ++ List.concat (map (snapshot_summary (current_snapshot_id_of body))
                (snapshots_of body)))%list.

(** A computation that sends nothing, whatever it prints or raises. *)
Definition silent {A} (m : M A) : Prop := exists out r, prints m out r.

(** A listed call that does not stop the sequence: its status is not 200,
    or it is 200 and the body is JSON. *)
Definition harmless (r : response) : bool :=
  negb (status_code r =? 200)
  || match parsed r with Some _ => true | None => false end.

(** ** Sample responses, bodies and servers *)

(** A server that gives the same answer to every request. *)
Definition always (r : response) : list request -> result response :=
  fun _ => Ok r.

(** A server that answers the n-th request with the n-th response of a
    script, and refuses the connection afterwards. *)
Definition scripted (rs : list response) : list request -> result response :=
  fun history =>
    match nth_error rs (Nat.pred (List.length history)) with
    | Some r => Ok r
    | None => Raise (ConnectionError "connection refused")
    end.

Definition json_response (status : Z) (j : json) : response :=
  {| status_code := status; text := "(json)"; parsed := Some j |}.

Definition not_found : response :=
  {| status_code := 404; text := "Not Found"; parsed := None |}.

Definition unauthorized : response :=
  {| status_code := 401; text := "Unauthorized"; parsed := None |}.

Definition token_body : json := JDict [("access_token", JStr "abc123")].

Definition schema0 : json :=
  JDict [("schema-id", JInt 0);
         ("fields",
          JList [JDict [("id", JInt 1); ("name", JStr "id");
                        ("required", JBool true); ("type", JStr "long")]])].

Definition schema1 : json :=
  JDict [("schema-id", JInt 1);
         ("fields",
          JList [JDict [("id", JInt 1); ("name", JStr "id");
                        ("required", JBool true); ("type", JStr "long")];
                 JDict [("id", JInt 2); ("name", JStr "created_at");
                        ("required", JBool true);
                        ("type", JStr "timestamp")]])].

Definition snapshot100 : json :=
  JDict [("snapshot-id", JInt 100);
         ("timestamp-ms", JInt 1700000000000);
         ("operation", JStr "append");
         ("summary", JDict [("added-records", JStr "3")])].

(** A snapshot without [operation] and without [summary]. *)
Definition snapshot99 : json :=
  JDict [("snapshot-id", JInt 99); ("timestamp-ms", JInt 1600000000000)].

Definition table_body (snapshots : list json) : json :=
  JDict [("metadata",
          JDict [("current-schema-id", JInt 1);
                 ("schemas", JList [schema0; schema1]);
                 ("current-snapshot-id", JInt 100);
                 ("snapshots", JList snapshots)])].

(** The body of the scenario: snapshot 100 is current, snapshot 99 is not. *)
Definition sample_metadata : json := table_body [snapshot100; snapshot99].

(** A body in which two snapshots carry the current id. *)
Definition twin_metadata : json := table_body [snapshot100; snapshot100].

(** A body in which the second snapshot has no id. *)
Definition broken_metadata : json :=
  table_body [snapshot100; JDict [("timestamp-ms", JInt 1600000000000)]].

(** The settings of a local development target, and the arguments of the
    entry sequence. *)
Definition HOST : string := "localhost:8183".
Definition ADMIN : string := "admin".
Definition TOKEN : json := JStr "abc123".
Definition CATALOG : string := "polaris4".
Definition NAMESPACE : string := "polaris4_namespace".
Definition TABLE : string := "customers".

(** A run of the entry sequence in which every call after the token
    request is answered 404. *)
Definition all_not_found : list response :=
  [json_response 200 token_body; not_found; not_found; not_found; not_found].

(** A computation that sends nothing and ends with [r]. *)
Definition finishes {A} (m : M A) (r : result A) : Prop :=
  exists out, prints m out r.

(** *** Where the traversal subscripts

    [traversed body k x]: reading [body], the traversal gets as far as the
    subscript [x[k]]; everything it read before that point was there. *)

(** The loop over the schemas gets as far as the schema [s]. *)
Definition schema_reached (body s : json) : Prop :=
  let m := field "metadata" body in
  has "metadata" body = true /\ has "current-schema-id" m = true
  /\ has "schemas" m = true
  /\ exists pre post,
       iter (field "schemas" m) = Ok (pre ++ s :: post)%list
       /\ forallb schema_ok pre = true.

(** The loop over the fields of a schema gets as far as the field [f]. *)
Definition field_reached (body f : json) : Prop :=
  exists s,
    schema_reached body s /\ has "schema-id" s = true
    /\ has "fields" s = true
    /\ exists pre post,
         iter (field "fields" s) = Ok (pre ++ f :: post)%list
         /\ forallb field_ok pre = true.

(** The loop over the snapshots gets as far as the snapshot [s]. *)
Definition snapshot_reached (body s : json) : Prop :=
  let m := field "metadata" body in
  schemas_ok body = true /\ has "snapshots" m = true
  /\ has "current-snapshot-id" m = true
  /\ exists pre post,
       iter (field "snapshots" m) = Ok (pre ++ s :: post)%list
       /\ forallb snapshot_ok pre = true.

Inductive traversed (body : json) : string -> json -> Prop :=
| at_metadata :
    traversed body "metadata" body
| at_current_schema_id :
    has "metadata" body = true ->
    traversed body "current-schema-id" (field "metadata" body)
| at_schemas :
    has "metadata" body = true ->
    has "current-schema-id" (field "metadata" body) = true ->
    traversed body "schemas" (field "metadata" body)
| at_schema_id s :
    schema_reached body s ->
    traversed body "schema-id" s
| at_fields s :
    schema_reached body s -> has "schema-id" s = true ->
    traversed body "fields" s
| at_name f :
    field_reached body f ->
    traversed body "name" f
| at_type f :
    field_reached body f -> has "name" f = true ->
    traversed body "type" f
| at_snapshots :
    schemas_ok body = true ->
    traversed body "snapshots" (field "metadata" body)
| at_current_snapshot_id :
    schemas_ok body = true ->
    has "snapshots" (field "metadata" body) = true ->
    traversed body "current-snapshot-id" (field "metadata" body)
| at_snapshot_id s :
    snapshot_reached body s ->
    traversed body "snapshot-id" s
| at_timestamp_ms s :
    snapshot_reached body s -> has "snapshot-id" s = true ->
    traversed body "timestamp-ms" s.

Create HintDb silent.

(** ** Vocabulary of the further properties *)

(** [m], run from [w], sends exactly one request and the transport fails
    on it with the exception [e] (connection refused, timeout). *)
Definition refused {A} (server : list request -> result response)
    (m : M A) (w : world) (e : exn) : Prop :=
  exists rq, issued m w = [rq] /\ server (sent w ++ [rq])%list = Raise e.

(** The seven operations that carry the token. *)
Definition authenticated_operations (host : string)
    (server : list request -> result response) (token : json)
    (catalog_name namespace_name table_name : string)
    (base_location storage_config schema properties : json)
  : list (M json) :=
  (list_operations host server token catalog_name namespace_name
   ++ [get_table_metadata host server token catalog_name namespace_name
         table_name]
   ++ create_operations host server token catalog_name namespace_name
        table_name base_location storage_config schema properties)%list.

Definition is_dict (x : json) : bool :=
  match x with JDict _ => true | _ => false end.

(** The first binding of a key in a form or in a set of headers. *)
Fixpoint assoc {V} (k : string) (l : list (string * V)) : option V :=
  match l with
  | [] => None
  | (k', v) :: l' => if String.eqb k k' then Some v else assoc k l'
  end.

Definition status_line (r : response) : fstring :=
  [Lit "Status: "; Val (JInt (status_code r))].

Definition response_line (r : response) : fstring :=
  [Lit "Response: "; Lit (text r)].

(** What [main] prints when it catches [e]. *)
Definition error_line (e : exn) : fstring := [Lit "Error: "; Err e].

Definition snapshot_header (s : json) : fstring :=
  [Lit NL; Lit "Snapshot ID: "; Val (field "snapshot-id" s)].

(** The report of a body up to and including the summaries of the
    snapshots [pre], which start its list of snapshots. *)
Definition report_lines_upto (body : json) (pre : list json)
  : list fstring :=
  ([[Lit "Current schema ID:"; Lit " ";
     Val (field "current-schema-id" (field "metadata" body))];
    [Lit "Available schemas:"; Lit " ";
     Val (JInt (Z.of_nat (List.length (schemas_of body))))]]
   ++ List.concat (map schema_summary (enumerate (schemas_of body)))
   ++ [[Lit NL; Lit "Current snapshot ID: ";
        Val (current_snapshot_id_of body)];
       [Lit "Total snapshots: ";
        Val (JInt (Z.of_nat (List.length (snapshots_of body))))]]
   ++ List.concat (map (snapshot_summary (current_snapshot_id_of body))
                pre))%list.

(** A server that refuses every connection. *)
Definition refusing : list request -> result response :=
  fun _ => Raise (ConnectionError "connection refused").

(** A 200 response whose text is not JSON. *)
Definition garbled : response :=
  {| status_code := 200; text := "<html>"; parsed := None |}.

(** A run of the entry sequence in which the catalog list is not JSON. *)
Definition garbled_catalogs : list response :=
  [json_response 200 token_body; garbled].

(** A body whose [schemas] is an object instead of a list. *)
Definition keyed_schemas : json :=
  JDict [("metadata",
          JDict [("current-schema-id", JInt 1);
                 ("schemas", JDict [("0", schema0)]);
                 ("current-snapshot-id", JInt 100);
                 ("snapshots", JList [snapshot100])])].

(** Whatever the world, [m] sends exactly one request, and when the server
    answers it with a response [r], what [m] returns or raises and what it
    prints satisfy [P r]. *)
Definition responds {A} (server : list request -> result response)
    (m : M A) (P : response -> result A -> list fstring -> Prop) : Prop :=
  forall w, exists rq,
    issued m w = [rq]
    /\ forall r, server (sent w ++ [rq])%list = Ok r ->
                 P r (outcome m w) (printed m w).

(** A 201 response without a body. *)
Definition created_empty : response :=
  {| status_code := 201; text := ""; parsed := None |}.

(** A 409 response with a JSON error body. *)
Definition conflict : response :=
  json_response 409 (JDict [("error", JStr "already exists")]).

(** A 304 response that carries a token. *)
Definition not_modified : response := json_response 304 token_body.

(** * Properties *)

(** ** Lookups *)

Lemma has_getitem k x : has k x = true -> getitem x k = Ok (field k x).
Proof.
  unfold has, field. destruct (getitem x k); [reflexivity | discriminate].
Qed.

Lemma has_dict k x : has k x = true -> exists d, x = JDict d.
Proof.
  unfold has. destruct x; simpl; try discriminate. intros _. now exists d.
Qed.

Lemma lacks_getitem k x : lacks k x = true -> getitem x k = Raise (KeyError k).
Proof.
  unfold lacks. destruct x; simpl; try discriminate.
  destruct (lookup k d); [discriminate | reflexivity].
Qed.

Lemma has_get k default x :
  has "snapshot-id" x = true ->
  get x k default = Ok (or_default k default x).
Proof.
  intros H. destruct (has_dict _ _ H) as [d ->].
  unfold or_default, has, field. simpl.
  destruct (lookup k d); reflexivity.
Qed.

Lemma iterable_iter x : iterable x = true -> iter x = Ok (items x).
Proof.
  unfold iterable, items. destruct (iter x); [reflexivity | discriminate].
Qed.

Lemma length_chars s : List.length (chars s) = String.length s.
Proof. induction s; simpl; congruence. Qed.

Lemma iterable_len x :
  iterable x = true -> len x = Ok (Z.of_nat (List.length (items x))).
Proof.
  destruct x; simpl; try discriminate; intros _; unfold items; simpl.
  - now rewrite length_chars.
  - reflexivity.
  - now rewrite length_map.
Qed.

(** ** Computations that only print *)

Lemma world_eta w : {| sent := sent w; stdout := stdout w |} = w.
Proof. now destruct w. Qed.

Lemma prints_ret {A} (a : A) : prints (ret a) [] (Ok a).
Proof. intros w. unfold ret. now rewrite app_nil_r, world_eta. Qed.

Lemma prints_lift {A} (r : result A) : prints (lift r) [] r.
Proof. intros w. unfold lift. now rewrite app_nil_r, world_eta. Qed.

Lemma prints_raise {A} e : prints (@raise A e) [] (Raise e).
Proof. intros w. unfold raise. now rewrite app_nil_r, world_eta. Qed.

Lemma prints_print l : prints (print l) [l] (Ok tt).
Proof. intros w. reflexivity. Qed.

Lemma prints_bind {A B} (m : M A) (k : A -> M B) out1 a out2 r :
  prints m out1 (Ok a) -> prints (k a) out2 r ->
  prints (bind m k) (out1 ++ out2) r.
Proof.
  intros Hm Hk w. unfold bind. rewrite Hm, Hk. simpl.
  now rewrite app_assoc.
Qed.

Lemma prints_bind_raise {A B} (m : M A) (k : A -> M B) out e :
  prints m out (Raise e) -> prints (bind m k) out (Raise e).
Proof. intros Hm w. unfold bind. now rewrite Hm. Qed.

Lemma prints_inj {A} (m : M A) out1 r1 out2 r2 :
  prints m out1 r1 -> prints m out2 r2 -> out1 = out2 /\ r1 = r2.
Proof.
  intros H1 H2. specialize (H1 empty_world). specialize (H2 empty_world).
  rewrite H1 in H2. simpl in H2. now inversion H2.
Qed.

Lemma prints_for_ok {A} (body : A -> M unit) (f : A -> list fstring) xs :
  (forall x, In x xs -> prints (body x) (f x) (Ok tt)) ->
  prints (for_ xs body) (List.concat (map f xs)) (Ok tt).
Proof.
  induction xs as [|x xs IH]; intros H; simpl.
  - apply prints_ret.
  - apply prints_bind with (a := tt).
    + apply H. now left.
    + apply IH. intros y Hy. apply H. now right.
Qed.

Lemma prints_for_raise {A} (body : A -> M unit) (f : A -> list fstring)
    pre x post out e :
  (forall y, In y pre -> prints (body y) (f y) (Ok tt)) ->
  prints (body x) out (Raise e) ->
  prints (for_ (pre ++ x :: post) body) (List.concat (map f pre) ++ out)
    (Raise e).
Proof.
  induction pre as [|y pre IH]; intros H Hx; simpl.
  - now apply prints_bind_raise.
  - rewrite <- app_assoc. apply prints_bind with (a := tt).
    + apply H. now left.
    + apply IH; [|assumption]. intros z Hz. apply H. now right.
Qed.

(** Silence is preserved by sequencing and by loops. *)

Lemma silent_ret {A} (a : A) : silent (ret a).
Proof. eexists _, _. apply prints_ret. Qed.

Lemma silent_lift {A} (r : result A) : silent (lift r).
Proof. eexists _, _. apply prints_lift. Qed.

Lemma silent_raise {A} e : silent (@raise A e).
Proof. eexists _, _. apply prints_raise. Qed.

Lemma silent_print l : silent (print l).
Proof. eexists _, _. apply prints_print. Qed.

Lemma silent_bind {A B} (m : M A) (k : A -> M B) :
  silent m -> (forall a, silent (k a)) -> silent (bind m k).
Proof.
  intros (out & [a|e] & Hm) Hk.
  - destruct (Hk a) as (out' & r & Ha). eexists _, _.
    eapply prints_bind; eassumption.
  - eexists _, _. eapply prints_bind_raise; eassumption.
Qed.

Lemma silent_for {A} (body : A -> M unit) xs :
  (forall x, silent (body x)) -> silent (for_ xs body).
Proof.
  intros H. induction xs as [|x xs IH]; simpl.
  - apply silent_ret.
  - apply silent_bind; [apply H | intros _; apply IH].
Qed.

#[local] Hint Resolve silent_ret silent_lift silent_raise silent_print
  silent_for : silent.

Ltac silence :=
  repeat first
    [ solve [auto with silent]
    | apply silent_bind; [|intros ?]
    | apply silent_for; intros ?
    | match goal with
      | |- silent (if ?b then _ else _) => destruct b
      | |- silent (let (_, _) := ?p in _) => destruct p
      | |- silent (match ?o with Some _ => _ | None => _ end) => destruct o
      end ].

(** The same rules when only the end of the computation matters. *)

Lemma finishes_ret {A} (a : A) : finishes (ret a) (Ok a).
Proof. eexists. apply prints_ret. Qed.

Lemma finishes_lift {A} (r : result A) : finishes (lift r) r.
Proof. eexists. apply prints_lift. Qed.

Lemma finishes_print l : finishes (print l) (Ok tt).
Proof. eexists. apply prints_print. Qed.

Lemma finishes_bind {A B} (m : M A) (k : A -> M B) a r :
  finishes m (Ok a) -> finishes (k a) r -> finishes (bind m k) r.
Proof. intros [o1 H1] [o2 H2]. eexists. eapply prints_bind; eassumption. Qed.

Lemma finishes_bind_raise {A B} (m : M A) (k : A -> M B) e :
  finishes m (Raise e) -> finishes (bind m k) (Raise e).
Proof. intros [o H]. eexists. eapply prints_bind_raise; eassumption. Qed.

Lemma finishes_for_ok {A} (body : A -> M unit) xs :
  (forall x, In x xs -> finishes (body x) (Ok tt)) ->
  finishes (for_ xs body) (Ok tt).
Proof.
  induction xs as [|x xs IH]; intros H; simpl.
  - apply finishes_ret.
  - apply finishes_bind with (a := tt).
    + apply H. now left.
    + apply IH. intros y Hy. apply H. now right.
Qed.

Lemma finishes_for_raise {A} (body : A -> M unit) pre x post e :
  (forall y, In y pre -> finishes (body y) (Ok tt)) ->
  finishes (body x) (Raise e) ->
  finishes (for_ (pre ++ x :: post) body) (Raise e).
Proof.
  induction pre as [|y pre IH]; intros H Hx; simpl.
  - now apply finishes_bind_raise.
  - apply finishes_bind with (a := tt).
    + apply H. now left.
    + apply IH; [|assumption]. intros z Hz. apply H. now right.
Qed.

Lemma prints_finishes {A} (m : M A) out r : prints m out r -> finishes m r.
Proof. intros H. now exists out. Qed.

(** One step of a computation whose first action succeeds. *)
Ltac pass :=
  eapply finishes_bind;
  [ first [ apply finishes_lift | apply finishes_print | apply finishes_ret ]
  | cbv beta ].

(** ** Loops over [enumerate] *)

Lemma enumerate_from_app {A} (xs ys : list A) i :
  enumerate_from i (xs ++ ys)
  = (enumerate_from i xs
     ++ enumerate_from (i + Z.of_nat (List.length xs)) ys)%list.
Proof.
  revert i. induction xs as [|x xs IH]; intros i; simpl.
  - now rewrite Z.add_0_r.
  - rewrite IH. do 3 f_equal. lia.
Qed.

Lemma in_enumerate_from {A} (xs : list A) i p :
  In p (enumerate_from i xs) -> In (snd p) xs.
Proof.
  revert i. induction xs as [|x xs IH]; intros i; simpl; [tauto|].
  intros [<-|H]; [now left | right; eauto].
Qed.

Lemma length_enumerate_from {A} (xs : list A) i :
  List.length (enumerate_from i xs) = List.length xs.
Proof. revert i. induction xs; intros i; simpl; congruence. Qed.

(** ** The traversal on a body of the expected shape *)

Lemma field_body_ok f :
  field_ok f = true -> prints (field_body f) [field_summary f] (Ok tt).
Proof.
  unfold field_ok. intros [Hn Ht]%andb_prop w.
  unfold field_body, sub, bind, lift, print.
  now rewrite (has_getitem _ _ Hn), (has_getitem _ _ Ht).
Qed.

Lemma concat_singletons {A B} (g : A -> B) xs :
  List.concat (map (fun x => [g x]) xs) = map g xs.
Proof. induction xs; simpl; congruence. Qed.

Lemma prints_bind_eq {A B} (m : M A) (k : A -> M B) out1 a out2 r out :
  prints m out1 (Ok a) -> prints (k a) out2 r -> out = (out1 ++ out2)%list ->
  prints (bind m k) out r.
Proof. intros Hm Hk ->. now apply prints_bind with (a := a). Qed.

(** One step of a computation whose first action succeeds; the equation
    on the printed lines is left for the end. *)
Ltac value := eapply prints_bind_eq; [apply prints_lift | cbv beta | ].
Ltac line := eapply prints_bind_eq; [apply prints_print | cbv beta | ].

Lemma schema_body_ok p :
  schema_ok (snd p) = true -> prints (schema_body p) (schema_summary p) (Ok tt).
Proof.
  destruct p as [i s]. unfold schema_ok. simpl.
  intros [[[Hid Hf]%andb_prop Hi]%andb_prop Hall]%andb_prop.
  unfold schema_body, sub, iter_.
  rewrite (has_getitem _ _ Hid), (has_getitem _ _ Hf).
  value. line. value. rewrite (iterable_iter _ Hi). value.
  - apply prints_for_ok with (f := fun f => [field_summary f]).
    intros f Hin. apply field_body_ok.
    rewrite forallb_forall in Hall. now apply Hall.
  - reflexivity.
  - reflexivity.
  - reflexivity.
  - unfold schema_summary. simpl. now rewrite concat_singletons.
Qed.

Lemma prints_when (b : bool) l :
  prints (if b then print l else ret tt) (if b then [l] else []) (Ok tt).
Proof. destruct b; [apply prints_print | apply prints_ret]. Qed.

Lemma snapshot_body_ok current s :
  snapshot_ok s = true ->
  prints (snapshot_body current s) (snapshot_summary current s) (Ok tt).
Proof.
  unfold snapshot_ok. intros [Hid Hts]%andb_prop.
  unfold snapshot_body, sub, get_.
  rewrite (has_getitem _ _ Hid), (has_getitem _ _ Hts), !(has_get _ _ _ Hid).
  value. line. value. line. value. line. value. line. value.
  - apply prints_when.
  - reflexivity.
  - reflexivity.
  - reflexivity.
  - reflexivity.
  - reflexivity.
  - reflexivity.
  - reflexivity.
  - reflexivity.
  - reflexivity.
Qed.

Lemma metadata_ok_inv body :
  metadata_ok body = true ->
  let m := field "metadata" body in
  (has "metadata" body = true /\ has "current-schema-id" m = true
   /\ has "schemas" m = true /\ iterable (field "schemas" m) = true
   /\ forallb schema_ok (schemas_of body) = true)
  /\ has "snapshots" m = true /\ has "current-snapshot-id" m = true
  /\ iterable (field "snapshots" m) = true
  /\ forallb snapshot_ok (snapshots_of body) = true.
Proof.
  unfold metadata_ok, schemas_ok. cbv zeta.
  rewrite !andb_true_iff. tauto.
Qed.

Lemma schemas_loop_ok ss :
  forallb schema_ok ss = true ->
  prints (for_ (enumerate ss) schema_body)
    (List.concat (map schema_summary (enumerate ss))) (Ok tt).
Proof.
  intros Hall. apply prints_for_ok. intros p Hp. apply schema_body_ok.
  rewrite forallb_forall in Hall. apply Hall.
  eapply in_enumerate_from, Hp.
Qed.

Lemma snapshots_loop_ok current ss :
  forallb snapshot_ok ss = true ->
  prints (for_ ss (snapshot_body current))
    (List.concat (map (snapshot_summary current) ss)) (Ok tt).
Proof.
  intros Hall. apply prints_for_ok. intros s Hs. apply snapshot_body_ok.
  rewrite forallb_forall in Hall. now apply Hall.
Qed.

Lemma report_ok body :
  metadata_ok body = true -> prints (report body) (report_lines body) (Ok tt).
Proof.
  intros H. apply metadata_ok_inv in H. cbv zeta in H.
  destruct H as ((Hm & Hc & Hs & Hi & Hall) & Hn & Hcur & Hin & Hsn).
  unfold report, sub, len_, iter_.
  rewrite !(has_getitem _ _ Hm).
  value. rewrite (has_getitem _ _ Hc). value. line.
  value. rewrite (has_getitem _ _ Hs). value.
  rewrite (iterable_len _ Hi). value. line.
  value. rewrite (has_getitem _ _ Hs). value.
  rewrite (iterable_iter _ Hi). value.
  eapply prints_bind_eq; [apply schemas_loop_ok, Hall | cbv beta | ].
  value. rewrite (has_getitem _ _ Hn). value.
  value. rewrite (has_getitem _ _ Hcur). value. line.
  rewrite (iterable_len _ Hin). value. line.
  rewrite (iterable_iter _ Hin). value.
  apply snapshots_loop_ok, Hsn.
  all: try reflexivity.
Qed.

(** ** What follows a request never sends another one *)

Lemma silent_sub x k : silent (sub x k).
Proof. apply silent_lift. Qed.

Lemma silent_get x k d : silent (get_ x k d).
Proof. apply silent_lift. Qed.

Lemma silent_len x : silent (len_ x).
Proof. apply silent_lift. Qed.

Lemma silent_iter x : silent (iter_ x).
Proof. apply silent_lift. Qed.

Lemma silent_response_json r : silent (response_json r).
Proof. unfold response_json. silence. Qed.

Lemma silent_raise_for_status r : silent (raise_for_status r).
Proof. unfold raise_for_status. silence. Qed.

#[local] Hint Resolve silent_sub silent_get silent_len silent_iter
  silent_response_json silent_raise_for_status : silent.

Lemma silent_field_body f : silent (field_body f).
Proof. unfold field_body. silence. Qed.

#[local] Hint Resolve silent_field_body : silent.

Lemma silent_schema_body p : silent (schema_body p).
Proof. destruct p as [i s]. unfold schema_body. silence. Qed.

Lemma silent_snapshot_body current s : silent (snapshot_body current s).
Proof. unfold snapshot_body. silence. Qed.

#[local] Hint Resolve silent_schema_body silent_snapshot_body : silent.

Lemma silent_report body : silent (report body).
Proof. unfold report. silence. Qed.

#[local] Hint Resolve silent_report : silent.

(** ** One request, then a silent continuation

    Every operation of the client prints a line, sends one request and
    hands the response to a continuation that only prints. *)

Lemma skipn_length_app {A} (xs ys : list A) :
  skipn (List.length xs) (xs ++ ys) = ys.
Proof. induction xs; simpl; auto. Qed.

Section Call.

Context {A : Type}.
Variable server : list request -> result response.
Variable l0 : fstring.
Variable rq : request.
Variable k : response -> M A.
Hypothesis silent_k : forall r, silent (k r).

Local Abbreviation call := (print l0 ;; (r <- send server rq ;; k r)).

Lemma call_issued w : issued call w = [rq].
Proof.
  unfold issued, call, bind, print, send. simpl.
  destruct (server (sent w ++ [rq])) as [r|e]; simpl.
  - destruct (silent_k r) as (out & res & Hk). rewrite Hk. simpl.
    apply skipn_length_app.
  - apply skipn_length_app.
Qed.

Lemma call_run w r out res :
  answered server call w r -> prints (k r) out res ->
  call w = ({| sent := sent w ++ [rq]; stdout := stdout w ++ l0 :: out |},
            res).
Proof.
  intros (rq' & Hrq & Hr) Hk. rewrite call_issued in Hrq.
  injection Hrq as <-.
  unfold call, bind, print, send. simpl. rewrite Hr, Hk. simpl.
  now rewrite <- app_assoc.
Qed.

Lemma call_outcome w r out res :
  answered server call w r -> prints (k r) out res -> outcome call w = res.
Proof.
  intros Ha Hk. unfold outcome. now rewrite (call_run _ _ _ _ Ha Hk).
Qed.

Lemma call_printed w r out res :
  answered server call w r -> prints (k r) out res ->
  printed call w = l0 :: out.
Proof.
  intros Ha Hk. unfold printed. rewrite (call_run _ _ _ _ Ha Hk). simpl.
  apply skipn_length_app.
Qed.

Lemma call_sent w : sent (fst (call w)) = (sent w ++ issued call w)%list.
Proof.
  rewrite call_issued.
  unfold call, bind, print, send. simpl.
  destruct (server (sent w ++ [rq])) as [r|e]; simpl; [|reflexivity].
  destruct (silent_k r) as (out & res & Hk). now rewrite Hk.
Qed.

Lemma call_sends (P : request -> Prop) : P rq -> sends call P.
Proof. intros H w. exists rq. split; [apply call_issued | exact H]. Qed.

Lemma call_ends w r res :
  answered server call w r -> finishes (k r) res -> outcome call w = res.
Proof. intros Ha [out Hk]. eapply call_outcome; eassumption. Qed.

Lemma call_answered w r :
  server (sent w ++ [rq]) = Ok r -> answered server call w r.
Proof. intros H. exists rq. split; [apply call_issued | exact H]. Qed.

End Call.

(** ** The operations of the client *)

Section Properties.

Variable POLARIS_HOST : string.
Variable CLIENT_ID : string.
Variable CLIENT_SECRET : string.
Variable server : list request -> result response.

Local Abbreviation get_token :=
  (get_token POLARIS_HOST CLIENT_ID CLIENT_SECRET server).
Local Abbreviation list_catalogs := (list_catalogs POLARIS_HOST server).
Local Abbreviation list_namespaces := (list_namespaces POLARIS_HOST server).
Local Abbreviation list_tables := (list_tables POLARIS_HOST server).
Local Abbreviation create_catalog := (create_catalog POLARIS_HOST server).
Local Abbreviation create_namespace := (create_namespace POLARIS_HOST server).
Local Abbreviation create_table := (create_table POLARIS_HOST server).
Local Abbreviation get_table_metadata :=
  (get_table_metadata POLARIS_HOST server).
Local Abbreviation main :=
  (main POLARIS_HOST CLIENT_ID CLIENT_SECRET server).
Local Abbreviation list_operations := (list_operations POLARIS_HOST server).
Local Abbreviation create_operations := (create_operations POLARIS_HOST server).

(** What the continuation of a list operation does with a response. *)
Lemma listed_200 (r : response) j :
  status_code r = 200 -> parsed r = Some j ->
  finishes
    (print [Lit "Status: "; Val (JInt (status_code r))] ;;
     print [Lit "Response: "; Lit (text r)] ;;
     if status_code r =? 200 then
       data <- response_json r ;;
       print [Lit "Parsed JSON: "; Val data] ;; ret data
     else ret None_)
    (Ok j).
Proof.
  intros Hs Hp. pass. pass. rewrite Hs. simpl.
  unfold response_json. rewrite Hp. eapply finishes_bind.
  { apply finishes_ret. }
  pass. apply finishes_ret.
Qed.

Lemma listed_other (r : response) :
  status_code r <> 200 ->
  finishes
    (print [Lit "Status: "; Val (JInt (status_code r))] ;;
     print [Lit "Response: "; Lit (text r)] ;;
     if status_code r =? 200 then
       data <- response_json r ;;
       print [Lit "Parsed JSON: "; Val data] ;; ret data
     else ret None_)
    (Ok None_).
Proof.
  intros Hs. pass. pass. apply Z.eqb_neq in Hs. rewrite Hs.
  apply finishes_ret.
Qed.

Lemma list_operation_200 op token c n w r j :
  In op (list_operations token c n) ->
  answered server op w r -> status_code r = 200 -> parsed r = Some j ->
  outcome op w = Ok j.
Proof.
  intros Hop Ha Hs Hp.
  destruct Hop as [<-|[<-|[<-|[]]]];
    (eapply call_ends; [| exact Ha | now apply listed_200]);
    intros r'; silence.
Qed.

Lemma list_operation_other op token c n w r :
  In op (list_operations token c n) ->
  answered server op w r -> status_code r <> 200 ->
  outcome op w = Ok None_.
Proof.
  intros Hop Ha Hs.
  destruct Hop as [<-|[<-|[<-|[]]]];
    (eapply call_ends; [| exact Ha | now apply listed_other]);
    intros r'; silence.
Qed.

(** [get_table_metadata] after the response has arrived. *)
Lemma inspected_200 (r : response) j res :
  status_code r = 200 -> parsed r = Some j -> finishes (report j) res ->
  finishes
    (print [Lit "Status: "; Val (JInt (status_code r))] ;;
     if status_code r =? 200 then
       metadata <- response_json r ;; report metadata ;; ret metadata
     else print [Lit "Error: "; Lit (text r)] ;; ret None_)
    (match res with Ok _ => Ok j | Raise e => Raise e end).
Proof.
  intros Hs Hp Hr. pass. rewrite Hs. simpl.
  unfold response_json. rewrite Hp. eapply finishes_bind.
  { apply finishes_ret. }
  cbv beta. destruct res as [[]|e].
  - eapply finishes_bind; [exact Hr | apply finishes_ret].
  - now apply finishes_bind_raise.
Qed.

Lemma inspected_other (r : response) :
  status_code r <> 200 ->
  finishes
    (print [Lit "Status: "; Val (JInt (status_code r))] ;;
     if status_code r =? 200 then
       metadata <- response_json r ;; report metadata ;; ret metadata
     else print [Lit "Error: "; Lit (text r)] ;; ret None_)
    (Ok None_).
Proof.
  intros Hs. pass. apply Z.eqb_neq in Hs. rewrite Hs. pass.
  apply finishes_ret.
Qed.

Lemma get_table_metadata_ends token c n t w r j res :
  answered server (get_table_metadata token c n t) w r ->
  status_code r = 200 -> parsed r = Some j -> finishes (report j) res ->
  outcome (get_table_metadata token c n t) w
  = match res with Ok _ => Ok j | Raise e => Raise e end.
Proof.
  intros Ha Hs Hp Hr.
  eapply call_ends; [| exact Ha | now apply inspected_200].
  intros r'. silence.
Qed.

(** What the continuation of a create operation does with a response. *)
Lemma created_ok (r : response) msg j :
  created (status_code r) = true -> parsed r = Some j ->
  finishes
    (print [Lit "Status: "; Val (JInt (status_code r))] ;;
     print [Lit "Response: "; Lit (text r)] ;;
     if created (status_code r) then
       data <- response_json r ;;
       print [Lit msg; Val data] ;; ret data
     else ret None_)
    (Ok j).
Proof.
  intros Hs Hp. pass. pass. rewrite Hs.
  unfold response_json. rewrite Hp. eapply finishes_bind.
  { apply finishes_ret. }
  pass. apply finishes_ret.
Qed.

Lemma created_other (r : response) msg :
  created (status_code r) = false ->
  finishes
    (print [Lit "Status: "; Val (JInt (status_code r))] ;;
     print [Lit "Response: "; Lit (text r)] ;;
     if created (status_code r) then
       data <- response_json r ;;
       print [Lit msg; Val data] ;; ret data
     else ret None_)
    (Ok None_).
Proof. intros Hs. pass. pass. rewrite Hs. apply finishes_ret. Qed.

Lemma created_spec s : created s = true <-> s = 200 \/ s = 201.
Proof. unfold created. rewrite orb_true_iff, !Z.eqb_eq. tauto. Qed.

Lemma create_operation_other op token c n t loc cfg sch props w r :
  In op (create_operations token c n t loc cfg sch props) ->
  answered server op w r -> created (status_code r) = false ->
  outcome op w = Ok None_.
Proof.
  intros Hop Ha Hs.
  destruct Hop as [<-|[<-|[<-|[]]]];
    (eapply call_ends; [| exact Ha | now apply created_other]);
    intros r'; silence.
Qed.

(** [get_token] after the response has arrived. *)
Lemma token_found (r : response) d v :
  is_error_status (status_code r) = false ->
  parsed r = Some (JDict d) -> lookup "access_token" d = Some v ->
  finishes
    (raise_for_status r ;;
     body <- response_json r ;;
     token <- sub body "access_token" ;;
     print [Lit "Token: "; Val token] ;; ret token)
    (Ok v).
Proof.
  intros Hs Hp Hv. unfold raise_for_status, response_json, sub.
  rewrite Hs, Hp. eapply finishes_bind; [apply finishes_ret | cbv beta].
  eapply finishes_bind; [apply finishes_ret | cbv beta].
  simpl. rewrite Hv. pass. pass. apply finishes_ret.
Qed.

Lemma token_missing (r : response) d :
  is_error_status (status_code r) = false ->
  parsed r = Some (JDict d) -> lookup "access_token" d = None ->
  finishes
    (raise_for_status r ;;
     body <- response_json r ;;
     token <- sub body "access_token" ;;
     print [Lit "Token: "; Val token] ;; ret token)
    (Raise (KeyError "access_token")).
Proof.
  intros Hs Hp Hv. unfold raise_for_status, response_json, sub.
  rewrite Hs, Hp. eapply finishes_bind; [apply finishes_ret | cbv beta].
  eapply finishes_bind; [apply finishes_ret | cbv beta].
  simpl. rewrite Hv. apply finishes_bind_raise, finishes_lift.
Qed.

Lemma token_refused (r : response) :
  is_error_status (status_code r) = true ->
  prints
    (raise_for_status r ;;
     body <- response_json r ;;
     token <- sub body "access_token" ;;
     print [Lit "Token: "; Val token] ;; ret token)
    [] (Raise (HTTPError (status_code r))).
Proof.
  intros Hs. unfold raise_for_status. rewrite Hs.
  apply prints_bind_raise, prints_raise.
Qed.

Lemma silent_token_continuation (r : response) :
  silent
    (raise_for_status r ;;
     body <- response_json r ;;
     token <- sub body "access_token" ;;
     print [Lit "Token: "; Val token] ;; ret token).
Proof. silence. Qed.


Lemma error_status_not_created s :
  is_error_status s = true -> s <> 200 /\ created s = false.
Proof.
  unfold is_error_status, created. intros [H1 H2]%andb_prop.
  apply Z.leb_le in H1. split; [lia|].
  apply orb_false_iff. split; apply Z.eqb_neq; lia.
Qed.

(** ** Counting the lines of a report *)

Lemma count_app {A} (p : A -> bool) xs ys :
  count p (xs ++ ys) = (count p xs + count p ys)%nat.
Proof. unfold count. now rewrite filter_app, length_app. Qed.

Lemma count_concat_map {A B} (p : B -> bool) (q : A -> bool) f xs :
  (forall x, count p (f x) = if q x then 1%nat else 0%nat) ->
  count p (List.concat (map f xs)) = count q xs.
Proof.
  intros H. induction xs as [|x xs IH]; simpl; [reflexivity|].
  rewrite count_app, IH, H. unfold count. simpl. now destruct (q x).
Qed.

Lemma count_all {A} (xs : list A) :
  count (fun _ => true) xs = List.length xs.
Proof. unfold count. induction xs; simpl; congruence. Qed.

Lemma count_nobody {A} (xs : list A) : count (fun _ => false) xs = 0%nat.
Proof. unfold count. induction xs; simpl; congruence. Qed.

Lemma count_map_none {A B} (p : B -> bool) (g : A -> B) xs :
  (forall x, p (g x) = false) -> count p (map g xs) = 0%nat.
Proof.
  intros H. unfold count. induction xs as [|x xs IH]; simpl; [reflexivity|].
  now rewrite H.
Qed.

Lemma schema_summary_headers p :
  count is_schema_header (schema_summary p) = 1%nat.
Proof.
  unfold schema_summary.
  change (count is_schema_header
            ([schema_header (fst p) (snd p)]
             ++ map field_summary (items (field "fields" (snd p)))) = 1%nat).
  rewrite count_app, count_map_none; reflexivity.
Qed.

Lemma schema_summary_no_snapshot p :
  count is_snapshot_header (schema_summary p) = 0%nat
  /\ count is_current_marker (schema_summary p) = 0%nat.
Proof.
  unfold schema_summary.
  change (schema_header (fst p) (snd p)
          :: map field_summary (items (field "fields" (snd p))))
    with ([schema_header (fst p) (snd p)]
          ++ map field_summary (items (field "fields" (snd p))))%list.
  rewrite !count_app, !count_map_none; repeat split; reflexivity.
Qed.

Lemma snapshot_summary_counts current s :
  count is_schema_header (snapshot_summary current s) = 0%nat
  /\ count is_snapshot_header (snapshot_summary current s) = 1%nat
  /\ count is_current_marker (snapshot_summary current s)
     = if is_current current s then 1%nat else 0%nat.
Proof.
  unfold snapshot_summary. destruct (is_current current s);
    repeat split; reflexivity.
Qed.

Lemma report_lines_counts body :
  count is_schema_header (report_lines body) = List.length (schemas_of body)
  /\ count is_snapshot_header (report_lines body)
     = List.length (snapshots_of body)
  /\ count is_current_marker (report_lines body)
     = count (is_current (current_snapshot_id_of body)) (snapshots_of body).
Proof.
  unfold report_lines. rewrite !count_app.
  rewrite (count_concat_map is_schema_header (fun _ => true) schema_summary),
    (count_concat_map is_snapshot_header (fun _ => false) schema_summary),
    (count_concat_map is_current_marker (fun _ => false) schema_summary),
    (count_concat_map is_schema_header (fun _ => false)
       (snapshot_summary (current_snapshot_id_of body))),
    (count_concat_map is_snapshot_header (fun _ => true)
       (snapshot_summary (current_snapshot_id_of body))),
    (count_concat_map is_current_marker
       (is_current (current_snapshot_id_of body))
       (snapshot_summary (current_snapshot_id_of body))).
  - rewrite !count_all, !count_nobody.
    unfold enumerate. rewrite length_enumerate_from.
    repeat split; simpl; lia.
  - intros s. apply snapshot_summary_counts.
  - intros s. apply snapshot_summary_counts.
  - intros s. apply snapshot_summary_counts.
  - intros p. apply schema_summary_no_snapshot.
  - intros p. apply schema_summary_no_snapshot.
  - intros p. apply schema_summary_headers.
Qed.

Lemma inspected_report (r : response) body :
  status_code r = 200 -> parsed r = Some body -> metadata_ok body = true ->
  prints
    (print [Lit "Status: "; Val (JInt (status_code r))] ;;
     if status_code r =? 200 then
       metadata <- response_json r ;; report metadata ;; ret metadata
     else print [Lit "Error: "; Lit (text r)] ;; ret None_)
    ([Lit "Status: "; Val (JInt (status_code r))] :: report_lines body)
    (Ok body).
Proof.
  intros Hs Hp Hok. line. rewrite Hs. simpl.
  unfold response_json. rewrite Hp.
  eapply prints_bind_eq; [apply prints_ret | cbv beta | ].
  eapply prints_bind_eq; [apply report_ok, Hok | cbv beta | ].
  apply prints_ret.
  - now rewrite app_nil_r.
  - reflexivity.
  - reflexivity.
Qed.


(** ** Faults of the traversal *)

Lemma iter_items x l : iter x = Ok l -> iterable x = true /\ items x = l.
Proof.
  unfold iterable, items. intros ->. now split.
Qed.

Lemma raises_here {B} x k (cont : json -> M B) :
  lacks k x = true ->
  finishes (bind (sub x k) cont) (Raise (KeyError k)).
Proof.
  intros H. unfold sub. rewrite (lacks_getitem _ _ H).
  apply finishes_bind_raise, finishes_lift.
Qed.

Lemma field_body_name f :
  lacks "name" f = true -> finishes (field_body f) (Raise (KeyError "name")).
Proof. intros H. unfold field_body. now apply raises_here. Qed.

Lemma field_body_type f :
  has "name" f = true -> lacks "type" f = true ->
  finishes (field_body f) (Raise (KeyError "type")).
Proof.
  intros Hn H. unfold field_body. unfold sub at 1.
  rewrite (has_getitem _ _ Hn). pass. now apply raises_here.
Qed.

Lemma schema_body_schema_id i s :
  lacks "schema-id" s = true ->
  finishes (schema_body (i, s)) (Raise (KeyError "schema-id")).
Proof. intros H. unfold schema_body. now apply raises_here. Qed.

Lemma schema_body_fields i s :
  has "schema-id" s = true -> lacks "fields" s = true ->
  finishes (schema_body (i, s)) (Raise (KeyError "fields")).
Proof.
  intros Hid H. unfold schema_body. unfold sub at 1.
  rewrite (has_getitem _ _ Hid). pass. pass.
  now apply raises_here.
Qed.

(** A fault in the loop over the fields of a schema. *)
Lemma schema_body_field i s pre f post e :
  has "schema-id" s = true -> has "fields" s = true ->
  iter (field "fields" s) = Ok (pre ++ f :: post)%list ->
  forallb field_ok pre = true ->
  finishes (field_body f) (Raise e) ->
  finishes (schema_body (i, s)) (Raise e).
Proof.
  intros Hid Hf Hit Hall Hraise. unfold schema_body, sub, iter_.
  rewrite (has_getitem _ _ Hid), (has_getitem _ _ Hf). pass. pass. pass.
  rewrite Hit. pass.
  apply finishes_for_raise; [|exact Hraise].
  intros y Hy. eapply prints_finishes, field_body_ok.
  rewrite forallb_forall in Hall. now apply Hall.
Qed.

Lemma snapshot_body_snapshot_id current s :
  lacks "snapshot-id" s = true ->
  finishes (snapshot_body current s) (Raise (KeyError "snapshot-id")).
Proof.
  intros H. unfold snapshot_body. now apply raises_here.
Qed.

Lemma snapshot_body_timestamp_ms current s :
  has "snapshot-id" s = true -> lacks "timestamp-ms" s = true ->
  finishes (snapshot_body current s) (Raise (KeyError "timestamp-ms")).
Proof.
  intros Hid H. unfold snapshot_body. unfold sub at 1.
  rewrite (has_getitem _ _ Hid). pass. pass.
  now apply raises_here.
Qed.

(** A fault in the loop over the schemas. *)
Lemma report_schema_fault body s e :
  schema_reached body s ->
  (forall i, finishes (schema_body (i, s)) (Raise e)) ->
  finishes (report body) (Raise e).
Proof.
  intros (Hm & Hc & Hs & pre & post & Hit & Hall) Hraise.
  destruct (iter_items _ _ Hit) as [Hi _].
  unfold report, sub, len_, iter_.
  rewrite !(has_getitem _ _ Hm).
  pass. rewrite (has_getitem _ _ Hc). pass. pass.
  pass. rewrite (has_getitem _ _ Hs). pass.
  rewrite (iterable_len _ Hi). pass. pass.
  pass. rewrite (has_getitem _ _ Hs). pass.
  rewrite Hit. pass.
  apply finishes_bind_raise.
  unfold enumerate. rewrite enumerate_from_app. simpl.
  apply finishes_for_raise; [|apply Hraise].
  intros y Hy. eapply prints_finishes, schema_body_ok.
  rewrite forallb_forall in Hall. apply Hall.
  eapply in_enumerate_from, Hy.
Qed.

(** The traversal up to the subscript of [snapshots]. *)
Lemma report_after_schemas body (cont : M unit) r :
  schemas_ok body = true ->
  finishes cont r ->
  finishes
    (m <- sub body "metadata" ;;
     current_schema_id <- sub m "current-schema-id" ;;
     print [Lit "Current schema ID:"; Lit " "; Val current_schema_id] ;;
     m <- sub body "metadata" ;;
     schemas <- sub m "schemas" ;;
     n <- len_ schemas ;;
     print [Lit "Available schemas:"; Lit " "; Val (JInt n)] ;;
     m <- sub body "metadata" ;;
     schemas <- sub m "schemas" ;;
     schemas <- iter_ schemas ;;
     for_ (enumerate schemas) schema_body ;;
     cont) r.
Proof.
  unfold schemas_ok. cbv zeta. rewrite !andb_true_iff.
  intros ((((Hm & Hc) & Hs) & Hi) & Hall) Hcont.
  unfold sub, len_, iter_.
  rewrite !(has_getitem _ _ Hm).
  pass. rewrite (has_getitem _ _ Hc). pass. pass.
  pass. rewrite (has_getitem _ _ Hs). pass.
  rewrite (iterable_len _ Hi). pass. pass.
  pass. rewrite (has_getitem _ _ Hs). pass.
  rewrite (iterable_iter _ Hi). pass.
  eapply finishes_bind; [|exact Hcont].
  eapply prints_finishes, schemas_loop_ok, Hall.
Qed.

(** A fault in the loop over the snapshots. *)
Lemma report_snapshot_fault body s e :
  snapshot_reached body s ->
  (forall current, finishes (snapshot_body current s) (Raise e)) ->
  finishes (report body) (Raise e).
Proof.
  intros (Hok & Hn & Hcur & pre & post & Hit & Hall) Hraise.
  destruct (iter_items _ _ Hit) as [Hi _].
  assert (Hm : has "metadata" body = true).
  { unfold schemas_ok in Hok. cbv zeta in Hok.
    rewrite !andb_true_iff in Hok. tauto. }
  apply report_after_schemas; [exact Hok|].
  unfold sub, len_, iter_. rewrite !(has_getitem _ _ Hm).
  pass. rewrite (has_getitem _ _ Hn). pass.
  pass. rewrite (has_getitem _ _ Hcur). pass. pass.
  rewrite (iterable_len _ Hi). pass. pass.
  rewrite Hit. pass.
  apply finishes_for_raise; [|apply Hraise].
  intros y Hy. eapply prints_finishes, snapshot_body_ok.
  rewrite forallb_forall in Hall. now apply Hall.
Qed.

Lemma report_fault body k x :
  traversed body k x -> lacks k x = true ->
  finishes (report body) (Raise (KeyError k)).
Proof.
  intros Ht Hl. destruct Ht as
    [ | Hm | Hm Hc | s Hs | s Hs Hid | f Hf | f Hf Hname
      | Hok | Hok Hn | s Hs | s Hs Hid ].
  - unfold report. now apply raises_here.
  - unfold report. unfold sub at 1. rewrite (has_getitem _ _ Hm). pass.
    now apply raises_here.
  - unfold report. unfold sub at 1 2 3. rewrite !(has_getitem _ _ Hm).
    pass. rewrite (has_getitem _ _ Hc). pass. pass. pass.
    now apply raises_here.
  - apply report_schema_fault with s; [exact Hs|].
    intros i. now apply schema_body_schema_id.
  - apply report_schema_fault with s; [exact Hs|].
    intros i. now apply schema_body_fields.
  - destruct Hf as (s & Hs & Hid & Hfs & pre & post & Hit & Hall).
    apply report_schema_fault with s; [exact Hs|].
    intros i. apply schema_body_field with pre f post; trivial.
    now apply field_body_name.
  - destruct Hf as (s & Hs & Hid & Hfs & pre & post & Hit & Hall).
    apply report_schema_fault with s; [exact Hs|].
    intros i. apply schema_body_field with pre f post; trivial.
    now apply field_body_type.
  - apply report_after_schemas; [exact Hok|].
    unfold sub at 1.
    assert (Hm : has "metadata" body = true).
    { unfold schemas_ok in Hok. cbv zeta in Hok.
      rewrite !andb_true_iff in Hok. tauto. }
    rewrite (has_getitem _ _ Hm). pass.
    now apply raises_here.
  - apply report_after_schemas; [exact Hok|].
    assert (Hm : has "metadata" body = true).
    { unfold schemas_ok in Hok. cbv zeta in Hok.
      rewrite !andb_true_iff in Hok. tauto. }
    unfold sub at 1 2 3. rewrite !(has_getitem _ _ Hm).
    pass. rewrite (has_getitem _ _ Hn). pass. pass.
    now apply raises_here.
  - apply report_snapshot_fault with s; [exact Hs|].
    intros current. now apply snapshot_body_snapshot_id.
  - apply report_snapshot_fault with s; [exact Hs|].
    intros current. now apply snapshot_body_timestamp_ms.
Qed.

(** On the sample body every one of the eleven keys is subscripted. *)
Lemma sample_traversal k :
  In k ["metadata"; "current-schema-id"; "schemas"; "schema-id"; "fields";
        "name"; "type"; "snapshots"; "current-snapshot-id"; "snapshot-id";
        "timestamp-ms"] ->
  exists x, traversed sample_metadata k x /\ has k x = true.
Proof.
  assert (Hs : schema_reached sample_metadata schema1).
  { repeat split. exists [schema0], []. split; reflexivity. }
  assert (Hn : snapshot_reached sample_metadata snapshot99).
  { repeat split. exists [snapshot100], []. split; reflexivity. }
  assert (Hf : field_reached sample_metadata
                 (JDict [("id", JInt 2); ("name", JStr "created_at");
                         ("required", JBool true);
                         ("type", JStr "timestamp")])).
  { exists schema1. split; [exact Hs|].
    split; [reflexivity|]. split; [reflexivity|].
    eexists [_], []. split; reflexivity. }
  intros [<-|[<-|[<-|[<-|[<-|[<-|[<-|[<-|[<-|[<-|[<-|[]]]]]]]]]]]];
    eexists; split.
  - apply at_metadata.
  - reflexivity.
  - now apply at_current_schema_id.
  - reflexivity.
  - now apply at_schemas.
  - reflexivity.
  - apply at_schema_id, Hs.
  - reflexivity.
  - apply (at_fields _ schema1 Hs). reflexivity.
  - reflexivity.
  - apply at_name, Hf.
  - reflexivity.
  - apply (at_type _ _ Hf). reflexivity.
  - reflexivity.
  - now apply at_snapshots.
  - reflexivity.
  - now apply at_current_snapshot_id.
  - reflexivity.
  - apply at_snapshot_id, Hn.
  - reflexivity.
  - apply (at_timestamp_ms _ snapshot99 Hn). reflexivity.
  - reflexivity.
Qed.

Lemma lacks_has k x : lacks k x = true -> has k x = false.
Proof. intros H. unfold has. now rewrite (lacks_getitem _ _ H). Qed.

Lemma snapshot_summary_defaults current s :
  (lacks "operation" s = true ->
   In [Lit "  Operation: "; Val (JStr "N/A")] (snapshot_summary current s))
  /\ (lacks "summary" s = true ->
      In [Lit "  Summary: "; Val (JDict [])] (snapshot_summary current s)).
Proof.
  unfold snapshot_summary, or_default. split; intros H%lacks_has; rewrite H.
  - right. right. now left.
  - right. right. right. now left.
Qed.

Lemma in_report_lines body s l :
  In s (snapshots_of body) ->
  In l (snapshot_summary (current_snapshot_id_of body) s) ->
  In l (report_lines body).
Proof.
  intros Hs Hl. unfold report_lines.
  apply in_or_app. right. apply in_or_app. right.
  apply in_or_app. right. apply in_concat.
  exists (snapshot_summary (current_snapshot_id_of body) s).
  split; [|exact Hl]. now apply in_map.
Qed.

Lemma get_table_metadata_printed token c n t w r body :
  answered server (get_table_metadata token c n t) w r ->
  status_code r = 200 -> parsed r = Some body -> metadata_ok body = true ->
  printed (get_table_metadata token c n t) w
  = [Lit NL; Lit "Getting metadata for table '"; Lit t; Lit "'..."]
    :: [Lit "Status: "; Val (JInt 200)] :: report_lines body.
Proof.
  intros Ha Hs Hp Hok. rewrite <- Hs.
  eapply call_printed; [| exact Ha | now apply inspected_report].
  intros r'. silence.
Qed.


(** ** URLs and payloads *)

Lemma append_assoc (a b c : string) : ((a ++ b) ++ c = a ++ (b ++ c))%string.
Proof. induction a; simpl; congruence. Qed.

Lemma prefix_append (a b : string) : String.prefix a (a ++ b) = true.
Proof.
  induction a as [|x a IH]; simpl.
  - now destruct b.
  - destruct (ascii_dec x x); [exact IH | congruence].
Qed.

Lemma prefix_refl (a : string) : String.prefix a a = true.
Proof.
  induction a as [|x a IH]; simpl; [reflexivity|].
  destruct (ascii_dec x x); [exact IH | congruence].
Qed.

Lemma prefix_split (a b u : string) :
  String.prefix (a ++ b) u = true ->
  exists u', u = (a ++ u')%string /\ String.prefix b u' = true.
Proof.
  revert u. induction a as [|x a IH]; intros u H.
  - now exists u.
  - destruct u as [|y u]; simpl in H; [discriminate|].
    destruct (ascii_dec x y) as [<-|]; [|discriminate].
    destruct (IH _ H) as (u' & -> & Hu). now exists u'.
Qed.

Lemma prefix_cancel (a b u : string) :
  String.prefix (a ++ b) (a ++ u) = String.prefix b u.
Proof.
  induction a as [|x a IH]; simpl; [reflexivity|].
  destruct (ascii_dec x x); [exact IH | congruence].
Qed.

Lemma management_prefix_eq host :
  management_prefix host
  = (("http://" ++ host ++ "/api/") ++ "management/v1/")%string.
Proof.
  unfold management_prefix. simpl. now rewrite append_assoc.
Qed.

Lemma catalog_prefix_eq host c :
  catalog_prefix host c
  = (("http://" ++ host ++ "/api/") ++ "catalog/v1/" ++ c ++ "/")%string.
Proof.
  unfold catalog_prefix. simpl. now rewrite append_assoc.
Qed.

Lemma prefixes_exclusive host c u :
  String.prefix (management_prefix host) u = true ->
  String.prefix (catalog_prefix host c) u = false.
Proof.
  rewrite management_prefix_eq, catalog_prefix_eq.
  intros H. apply prefix_split in H. destruct H as (u' & -> & Hu).
  rewrite prefix_cancel.
  change "management/v1/" with ("m" ++ "anagement/v1/")%string in Hu.
  apply prefix_split in Hu. destruct Hu as (u'' & -> & _).
  reflexivity.
Qed.

Lemma under_management host rest :
  String.prefix (management_prefix host)
    ("http://" ++ host ++ "/api/management/v1/" ++ rest) = true.
Proof.
  replace ("http://" ++ host ++ "/api/management/v1/" ++ rest)%string
    with (management_prefix host ++ rest)%string.
  - apply prefix_append.
  - unfold management_prefix. simpl. now rewrite append_assoc.
Qed.

Lemma under_catalog host c rest :
  String.prefix (catalog_prefix host c)
    ("http://" ++ host ++ "/api/catalog/v1/" ++ c ++ "/" ++ rest) = true.
Proof.
  replace ("http://" ++ host ++ "/api/catalog/v1/" ++ c ++ "/" ++ rest)%string
    with (catalog_prefix host c ++ rest)%string.
  - apply prefix_append.
  - unfold catalog_prefix. now rewrite !append_assoc.
Qed.

(** C7.  Whatever the arguments, the world and the server, the catalog
    operations ([list_catalogs], [create_catalog]) send their request to a
    URL under the management prefix [http://HOST/api/management/v1/], and
    the namespace, table and metadata operations to a URL under the prefix
    of the given catalog, [http://HOST/api/catalog/v1/NAME/].  The two
    prefixes differ, and no URL is under both. *)
Theorem api_prefixes token c n t loc cfg sch props :
  (addresses (list_catalogs token) (management_prefix POLARIS_HOST)
   /\ addresses (create_catalog token c loc cfg)
        (management_prefix POLARIS_HOST))
  /\ (addresses (list_namespaces token c) (catalog_prefix POLARIS_HOST c)
      /\ addresses (list_tables token c n) (catalog_prefix POLARIS_HOST c)
      /\ addresses (create_namespace token c n props)
           (catalog_prefix POLARIS_HOST c)
      /\ addresses (create_table token c n t sch props)
           (catalog_prefix POLARIS_HOST c)
      /\ addresses (get_table_metadata token c n t)
           (catalog_prefix POLARIS_HOST c))
  /\ management_prefix POLARIS_HOST <> catalog_prefix POLARIS_HOST c
  /\ forall u, String.prefix (management_prefix POLARIS_HOST) u = true ->
               String.prefix (catalog_prefix POLARIS_HOST c) u = false.
Proof.
  repeat split.
  - apply call_sends; [intros r; silence|]. simpl url.
    apply (under_management POLARIS_HOST "catalogs").
  - apply call_sends; [intros r; silence|]. simpl url.
    apply (under_management POLARIS_HOST "catalogs").
  - apply call_sends; [intros r; silence|]. simpl url.
    apply (under_catalog POLARIS_HOST c "namespaces").
  - apply call_sends; [intros r; silence|]. simpl url.
    apply (under_catalog POLARIS_HOST c ("namespaces/" ++ n ++ "/tables")).
  - apply call_sends; [intros r; silence|]. simpl url.
    apply (under_catalog POLARIS_HOST c "namespaces").
  - apply call_sends; [intros r; silence|]. simpl url.
    apply (under_catalog POLARIS_HOST c ("namespaces/" ++ n ++ "/tables")).
  - apply call_sends; [intros r; silence|]. simpl url.
    apply (under_catalog POLARIS_HOST c
             ("namespaces/" ++ n ++ "/tables/" ++ t)).
  - intros E.
    pose proof (prefixes_exclusive POLARIS_HOST c
                  (management_prefix POLARIS_HOST)) as H.
    rewrite <- E, prefix_refl in H. specialize (H eq_refl). discriminate.
  - apply prefixes_exclusive.
Qed.

(** C9.  Whatever the arguments, the world and the server,
    [create_namespace] sends the payload
    [{"namespace": [namespace_name], "properties": p}]: the namespace is
    the one-element list of the given name, and [p] is the given properties
    when they are truthy and the empty mapping otherwise; so [p] is the
    empty mapping when no properties are given ([None]) and the given
    mapping when a mapping is given (the empty one included). *)
Theorem create_namespace_payload token c n :
  (forall props,
     sends (create_namespace token c n props)
       (fun rq =>
          body rq
          = Json (JDict [("namespace", JList [JStr n]);
                         ("properties",
                          if truthy props then props else JDict [])])))
  /\ sends (create_namespace token c n None_)
       (fun rq =>
          body rq
          = Json (JDict [("namespace", JList [JStr n]);
                         ("properties", JDict [])]))
  /\ (forall d,
        sends (create_namespace token c n (JDict d))
          (fun rq =>
             body rq
             = Json (JDict [("namespace", JList [JStr n]);
                            ("properties", JDict d)]))).
Proof.
  split; [|split].
  - intros props. apply call_sends; [intros r; silence | reflexivity].
  - apply call_sends; [intros r; silence | reflexivity].
  - intros d. apply call_sends; [intros r; silence|].
    simpl. now destruct d.
Qed.

(** C10.  Whatever the arguments, the world and the server,
    [create_catalog] sends a JSON object whose keys are [type], [name],
    [properties] and [storageConfigInfo] and no other, whose [type] is
    ["INTERNAL"], whose [name] and [storageConfigInfo] are the given ones,
    and whose [properties] hold the given base location under
    [default-base-location] and nothing else. *)
Theorem create_catalog_payload token c loc cfg :
  sends (create_catalog token c loc cfg)
    (fun rq =>
       exists data,
         body rq = Json data
         /\ keys data = ["type"; "name"; "properties"; "storageConfigInfo"]
         /\ field "type" data = JStr "INTERNAL"
         /\ field "name" data = JStr c
         /\ field "storageConfigInfo" data = cfg
         /\ keys (field "properties" data) = ["default-base-location"]
         /\ field "default-base-location" (field "properties" data) = loc).
Proof.
  apply call_sends; [intros r; silence|].
  eexists. split; [reflexivity|]. repeat split.
Qed.

(** ** The entry sequence *)

Lemma run_pair {A} (m : M A) w a :
  outcome m w = Ok a -> m w = (fst (m w), Ok a).
Proof. unfold outcome. intros <-. apply surjective_pairing. Qed.

Lemma harmless_outcome op token c n w r :
  In op (list_operations token c n) ->
  answered server op w r -> harmless r = true ->
  exists v, outcome op w = Ok v.
Proof.
  intros Hop Ha Hh. unfold harmless in Hh.
  destruct (Z.eq_dec (status_code r) 200) as [Hs|Hs].
  - rewrite Hs in Hh. simpl in Hh.
    destruct (parsed r) as [j|] eqn:Hp; [|discriminate].
    exists j. now apply list_operation_200 with token c n r.
  - exists None_. now apply list_operation_other with token c n r.
Qed.

Lemma get_token_sent w :
  sent (fst (get_token w)) = (sent w ++ issued get_token w)%list.
Proof. apply call_sent. intros r. silence. Qed.

Lemma list_operation_sent op token c n w :
  In op (list_operations token c n) ->
  sent (fst (op w)) = (sent w ++ issued op w)%list.
Proof.
  intros [<-|[<-|[<-|[]]]]; apply call_sent; intros r; silence.
Qed.

Lemma get_table_metadata_sent token c n t w :
  sent (fst (get_table_metadata token c n t w))
  = (sent w ++ issued (get_table_metadata token c n t) w)%list.
Proof. apply call_sent. intros r. silence. Qed.

Lemma get_token_one w : exists rq, issued get_token w = [rq].
Proof. eexists. apply call_issued. intros r. silence. Qed.

Lemma get_table_metadata_one token c n t w :
  exists rq, issued (get_table_metadata token c n t) w = [rq].
Proof. eexists. apply call_issued. intros r. silence. Qed.

(** C5.  In [main], once the token is obtained, a response with a status
    other than 200 to [list_catalogs], [list_namespaces] or [list_tables]
    (or a 200 response with a JSON body) does not stop the sequence: the
    call returns ([None] when the status is not 200) and the next
    operation is issued.  The requests of [main] are then those of the five
    operations, in order, and [main] ends normally. *)
Theorem main_continues_after_http_errors w token r2 r3 r4 :
  let c := "polaris4" in
  let n := "polaris4_namespace" in
  let t := "customers" in
  let w1 := fst (get_token w) in
  let w2 := fst (list_catalogs token w1) in
  let w3 := fst (list_namespaces token c w2) in
  let w4 := fst (list_tables token c n w3) in
  outcome get_token w = Ok token ->
  answered server (list_catalogs token) w1 r2 -> harmless r2 = true ->
  answered server (list_namespaces token c) w2 r3 -> harmless r3 = true ->
  answered server (list_tables token c n) w3 r4 -> harmless r4 = true ->
  issued main w
  = (issued get_token w
     ++ issued (list_catalogs token) w1
     ++ issued (list_namespaces token c) w2
     ++ issued (list_tables token c n) w3
     ++ issued (get_table_metadata token c n t) w4)%list
  /\ List.length (issued main w) = 5%nat
  /\ (status_code r2 <> 200 -> outcome (list_catalogs token) w1 = Ok None_)
  /\ (status_code r3 <> 200 ->
      outcome (list_namespaces token c) w2 = Ok None_)
  /\ (status_code r4 <> 200 -> outcome (list_tables token c n) w3 = Ok None_)
  /\ outcome main w = Ok tt.
Proof.
  intros c n t w1 w2 w3 w4 H1 A2 H2 A3 H3 A4 H4.
  assert (L2 : In (list_catalogs token) (list_operations token c n))
    by (now left).
  assert (L3 : In (list_namespaces token c) (list_operations token c n))
    by (right; now left).
  assert (L4 : In (list_tables token c n) (list_operations token c n))
    by (right; right; now left).
  destruct (harmless_outcome _ _ _ _ _ _ L2 A2 H2) as [v2 O2].
  destruct (harmless_outcome _ _ _ _ _ _ L3 A3 H3) as [v3 O3].
  destruct (harmless_outcome _ _ _ _ _ _ L4 A4 H4) as [v4 O4].
  pose proof (run_pair _ _ _ H1) as E1.
  pose proof (run_pair _ _ _ O2) as E2.
  pose proof (run_pair _ _ _ O3) as E3.
  pose proof (run_pair _ _ _ O4) as E4.
  pose proof (get_token_sent w) as S1.
  pose proof (list_operation_sent _ _ _ _ w1 L2) as S2.
  pose proof (list_operation_sent _ _ _ _ w2 L3) as S3.
  pose proof (list_operation_sent _ _ _ _ w3 L4) as S4.
  pose proof (get_table_metadata_sent token c n t w4) as S5.
  fold w1 in E1, S1. fold w2 in E2, S2. fold w3 in E3, S3.
  fold w4 in E4, S4.
  assert (Hmain :
    sent (fst (main w)) = sent (fst (get_table_metadata token c n t w4))
    /\ outcome main w = Ok tt).
  { unfold outcome, main, try_except, bind. fold c n t.
    rewrite E1. cbv beta iota. rewrite E2. cbv beta iota.
    rewrite E3. cbv beta iota. rewrite E4. cbv beta iota.
    destruct (get_table_metadata token c n t w4) as [w5 [v5|e5]];
      split; reflexivity. }
  destruct Hmain as [Hsent Hend].
  assert (Hissued :
    issued main w
    = (issued get_token w
       ++ issued (list_catalogs token) w1
       ++ issued (list_namespaces token c) w2
       ++ issued (list_tables token c n) w3
       ++ issued (get_table_metadata token c n t) w4)%list).
  { unfold issued at 1. rewrite Hsent, S5, S4, S3, S2, S1.
    rewrite <- !app_assoc. apply skipn_length_app. }
  split; [exact Hissued|]. split.
  - rewrite Hissued.
    destruct (get_token_one w) as [q1 ->].
    destruct A2 as (q2 & -> & _), A3 as (q3 & -> & _), A4 as (q4 & -> & _).
    destruct (get_table_metadata_one token c n t w4) as [q5 ->].
    reflexivity.
  - repeat split; trivial; intros Hs.
    + now apply list_operation_other with token c n r2.
    + now apply list_operation_other with token c n r3.
    + now apply list_operation_other with token c n r4.
Qed.

End Properties.

(** * Concrete runs *)





(** Every call after the token request is answered 404: the five requests
    are sent all the same. *)
Lemma main_continues_after_http_errors_witness :
  harmless not_found = true
  /\ List.length
       (issued (main HOST ADMIN ADMIN (scripted all_not_found)) empty_world)
     = 5%nat
  /\ outcome (main HOST ADMIN ADMIN (scripted all_not_found)) empty_world
     = Ok tt.
Proof.
  split; [reflexivity|].
  pose proof (main_continues_after_http_errors HOST ADMIN ADMIN
                (scripted all_not_found) empty_world TOKEN
                not_found not_found not_found) as H.
  cbv zeta in H.
  destruct H as (_ & Hlen & _ & _ & _ & Hend).
  - vm_compute. reflexivity.
  - eexists. split; cbv; reflexivity.
  - vm_compute. reflexivity.
  - eexists. split; cbv; reflexivity.
  - vm_compute. reflexivity.
  - eexists. split; cbv; reflexivity.
  - vm_compute. reflexivity.
  - split; assumption.
Defined.

(** No URL under the management prefix is under the prefix of a catalog. *)
Lemma api_prefixes_witness :
  String.prefix (catalog_prefix HOST CATALOG)
    "http://localhost:8183/api/management/v1/catalogs" = false.
Proof.
  refine (proj2 (proj2 (proj2
            (api_prefixes HOST (always not_found) TOKEN CATALOG NAMESPACE
               TABLE JNull JNull JNull JNull))) _ _).
  vm_compute. reflexivity.
Defined.


(** * Further properties *)

(** ** More on one request and its continuation *)

Section CallFaults.

Context {A : Type}.
Variable server : list request -> result response.
Variable l0 : fstring.
Variable rq : request.
Variable k : response -> M A.
Hypothesis silent_k : forall r, silent (k r).

Local Abbreviation call := (print l0 ;; (r <- send server rq ;; k r)).

Lemma call_refused_run w e :
  refused server call w e ->
  call w = ({| sent := sent w ++ [rq]; stdout := stdout w ++ [l0] |},
            Raise e).
Proof.
  intros (rq' & Hrq & He).
  rewrite (call_issued server l0 rq k silent_k) in Hrq.
  injection Hrq as <-.
  unfold bind, print, send. simpl. now rewrite He.
Qed.

Lemma call_refused_outcome w e :
  refused server call w e -> outcome call w = Raise e.
Proof. intros H. unfold outcome. now rewrite (call_refused_run _ _ H). Qed.

Lemma call_refused_printed w e :
  refused server call w e -> printed call w = [l0].
Proof.
  intros H. unfold printed. rewrite (call_refused_run _ _ H). simpl.
  apply skipn_length_app.
Qed.

Lemma call_refused_one_line w e :
  refused server call w e -> List.length (printed call w) = 1%nat.
Proof. intros H. now rewrite (call_refused_printed _ _ H). Qed.

(** Earlier output is kept: the call only appends to it. *)
Lemma call_stdout w :
  stdout (fst (call w)) = (stdout w ++ printed call w)%list.
Proof.
  unfold printed, bind, print, send. simpl.
  destruct (server (sent w ++ [rq])) as [r|e]; simpl.
  - destruct (silent_k r) as (out & res & Hk). rewrite Hk. simpl.
    rewrite <- app_assoc. now rewrite skipn_length_app.
  - now rewrite skipn_length_app.
Qed.

End CallFaults.

Section Further.

Variable POLARIS_HOST : string.
Variable CLIENT_ID : string.
Variable CLIENT_SECRET : string.
Variable server : list request -> result response.

Local Abbreviation get_token :=
  (get_token POLARIS_HOST CLIENT_ID CLIENT_SECRET server).
Local Abbreviation list_catalogs := (list_catalogs POLARIS_HOST server).
Local Abbreviation list_namespaces := (list_namespaces POLARIS_HOST server).
Local Abbreviation list_tables := (list_tables POLARIS_HOST server).
Local Abbreviation create_catalog := (create_catalog POLARIS_HOST server).
Local Abbreviation create_namespace := (create_namespace POLARIS_HOST server).
Local Abbreviation create_table := (create_table POLARIS_HOST server).
Local Abbreviation get_table_metadata :=
  (get_table_metadata POLARIS_HOST server).
Local Abbreviation main :=
  (main POLARIS_HOST CLIENT_ID CLIENT_SECRET server).
Local Abbreviation list_operations := (list_operations POLARIS_HOST server).
Local Abbreviation create_operations :=
  (create_operations POLARIS_HOST server).
Local Abbreviation authenticated_operations :=
  (authenticated_operations POLARIS_HOST server).

(** ** What is sent *)

(** Every operation that takes the token sends the two headers of
    [get_headers]: [Authorization: Bearer <token>] and the JSON content
    type; the token request itself has no [Authorization] header. *)
Theorem token_sent_as_bearer token c n t loc cfg sch props :
  Forall
    (fun op =>
       sends op
         (fun rq =>
            headers rq = get_headers token
            /\ assoc "Authorization" (headers rq)
               = Some [Lit "Bearer "; Val token]
            /\ assoc "Content-Type" (headers rq)
               = Some [Lit "application/json"]))
    (authenticated_operations token c n t loc cfg sch props)
  /\ sends get_token
       (fun rq =>
          assoc "Authorization" (headers rq) = None
          /\ assoc "Content-Type" (headers rq)
             = Some [Lit "application/x-www-form-urlencoded"]).
Proof.
  split.
  - repeat constructor;
      (apply call_sends; [intros r; silence | repeat split]).
  - apply call_sends; [apply silent_token_continuation | now split].
Qed.

(** The read operations send a GET without payload, the create operations
    a POST with a JSON payload, and the token request a POST with a form. *)
Theorem verbs_and_payloads token c n t loc cfg sch props :
  Forall
    (fun op => sends op (fun rq => method rq = GET /\ body rq = NoBody))
    (list_operations token c n ++ [get_table_metadata token c n t])
  /\ Forall
       (fun op =>
          sends op (fun rq => method rq = POST /\ exists j, body rq = Json j))
       (create_operations token c n t loc cfg sch props)
  /\ sends get_token
       (fun rq => method rq = POST /\ exists form, body rq = Data form).
Proof.
  split; [|split].
  - repeat constructor;
      (apply call_sends; [intros r; silence | now split]).
  - repeat constructor;
      (apply call_sends; [intros r; silence | split; [reflexivity|]]);
      eexists; reflexivity.
  - apply call_sends; [apply silent_token_continuation|].
    split; [reflexivity|]. eexists; reflexivity.
Qed.

(** The token request goes to the [oauth/tokens] endpoint and carries the
    credentials in its form only: four fields, the scope
    [PRINCIPAL_ROLE:ALL], the grant type [client_credentials], and the
    configured client id and secret. *)
Theorem token_request_form :
  sends get_token
    (fun rq =>
       url rq = "http://" ++ POLARIS_HOST ++ "/api/catalog/v1/oauth/tokens"
       /\ exists form,
            body rq = Data form
            /\ map fst form
               = ["scope"; "grant_type"; "client_id"; "client_secret"]
            /\ assoc "scope" form = Some "PRINCIPAL_ROLE:ALL"
            /\ assoc "grant_type" form = Some "client_credentials"
            /\ assoc "client_id" form = Some CLIENT_ID
            /\ assoc "client_secret" form = Some CLIENT_SECRET).
Proof.
  apply call_sends; [apply silent_token_continuation|].
  split; [reflexivity|]. eexists. repeat split.
Qed.

(** The token reaches the service in the headers only: run with two
    different tokens, an operation sends the same verb to the same URL with
    the same payload. *)
Theorem token_only_in_headers token token' c n t loc cfg sch props :
  Forall2
    (fun op op' =>
       forall w w', exists rq rq',
         issued op w = [rq] /\ issued op' w' = [rq']
         /\ method rq = method rq' /\ url rq = url rq'
         /\ body rq = body rq')
    (authenticated_operations token c n t loc cfg sch props)
    (authenticated_operations token' c n t loc cfg sch props).
Proof.
  repeat constructor; intros w w'; eexists _, _;
    (split; [apply call_issued; intros r; silence|]);
    (split; [apply call_issued; intros r; silence|]);
    repeat split.
Qed.

(** The URLs nest as the resources do.  Listing and creating use the same
    collection URL; the tables of a namespace live under the URL of the
    namespaces, and a table under the URL of the tables.  Names are
    inserted as they are, without escaping. *)
Theorem resource_urls token c n t loc cfg sch props :
  let catalogs := "http://" ++ POLARIS_HOST ++ "/api/management/v1/catalogs" in
  let namespaces :=
    "http://" ++ POLARIS_HOST ++ "/api/catalog/v1/" ++ c ++ "/namespaces" in
  let tables := namespaces ++ "/" ++ n ++ "/tables" in
  sends (list_catalogs token) (fun rq => url rq = catalogs)
  /\ sends (create_catalog token c loc cfg) (fun rq => url rq = catalogs)
  /\ sends (list_namespaces token c) (fun rq => url rq = namespaces)
  /\ sends (create_namespace token c n props) (fun rq => url rq = namespaces)
  /\ sends (list_tables token c n) (fun rq => url rq = tables)
  /\ sends (create_table token c n t sch props) (fun rq => url rq = tables)
  /\ sends (get_table_metadata token c n t)
       (fun rq => url rq = tables ++ "/" ++ t).
Proof.
  intros catalogs namespaces tables.
  repeat split; (apply call_sends; [intros r; silence|]);
    try reflexivity; unfold tables, namespaces; simpl;
    rewrite ?append_assoc; simpl; rewrite ?append_assoc; reflexivity.
Qed.

(** [create_table] sends the payload
    [{"name": table_name, "schema": schema, "properties": p}], with the
    schema passed through untouched and [p] the given properties when they
    are truthy and the empty mapping otherwise. *)
Theorem create_table_payload token c n t sch :
  (forall props,
     sends (create_table token c n t sch props)
       (fun rq =>
          body rq
          = Json (JDict [("name", JStr t); ("schema", sch);
                         ("properties",
                          if truthy props then props else JDict [])])))
  /\ sends (create_table token c n t sch None_)
       (fun rq =>
          body rq
          = Json (JDict [("name", JStr t); ("schema", sch);
                         ("properties", JDict [])]))
  /\ (forall d,
        sends (create_table token c n t sch (JDict d))
          (fun rq =>
             body rq
             = Json (JDict [("name", JStr t); ("schema", sch);
                            ("properties", JDict d)]))).
Proof.
  split; [|split].
  - intros props. apply call_sends; [intros r; silence | reflexivity].
  - apply call_sends; [intros r; silence | reflexivity].
  - intros d. apply call_sends; [intros r; silence|].
    simpl. now destruct d.
Qed.

(** ** Faults *)

Lemma in_authenticated op token c n t loc cfg sch props :
  In op (authenticated_operations token c n t loc cfg sch props) ->
  In op (list_operations token c n)
  \/ op = get_table_metadata token c n t
  \/ In op (create_operations token c n t loc cfg sch props).
Proof.
  unfold authenticated_operations. intros H.
  apply in_app_or in H. destruct H as [H|H]; [now left|].
  apply in_app_or in H. destruct H as [[<-|[]]|H]; auto.
Qed.


Lemma listed_garbled (r : response) :
  status_code r = 200 -> parsed r = None ->
  finishes
    (print [Lit "Status: "; Val (JInt (status_code r))] ;;
     print [Lit "Response: "; Lit (text r)] ;;
     if status_code r =? 200 then
       data <- response_json r ;;
       print [Lit "Parsed JSON: "; Val data] ;; ret data
     else ret None_)
    (Raise JSONDecodeError).
Proof.
  intros Hs Hp. pass. pass. rewrite Hs. simpl.
  unfold response_json. rewrite Hp.
  apply finishes_bind_raise. eexists. apply prints_raise.
Qed.

Lemma created_garbled (r : response) msg :
  created (status_code r) = true -> parsed r = None ->
  finishes
    (print [Lit "Status: "; Val (JInt (status_code r))] ;;
     print [Lit "Response: "; Lit (text r)] ;;
     if created (status_code r) then
       data <- response_json r ;;
       print [Lit msg; Val data] ;; ret data
     else ret None_)
    (Raise JSONDecodeError).
Proof.
  intros Hs Hp. pass. pass. rewrite Hs.
  unfold response_json. rewrite Hp.
  apply finishes_bind_raise. eexists. apply prints_raise.
Qed.

Lemma inspected_garbled (r : response) :
  status_code r = 200 -> parsed r = None ->
  finishes
    (print [Lit "Status: "; Val (JInt (status_code r))] ;;
     if status_code r =? 200 then
       metadata <- response_json r ;; report metadata ;; ret metadata
     else print [Lit "Error: "; Lit (text r)] ;; ret None_)
    (Raise JSONDecodeError).
Proof.
  intros Hs Hp. pass. rewrite Hs. simpl.
  unfold response_json. rewrite Hp.
  apply finishes_bind_raise. eexists. apply prints_raise.
Qed.

Lemma token_garbled (r : response) :
  is_error_status (status_code r) = false -> parsed r = None ->
  finishes
    (raise_for_status r ;;
     body <- response_json r ;;
     token <- sub body "access_token" ;;
     print [Lit "Token: "; Val token] ;; ret token)
    (Raise JSONDecodeError).
Proof.
  intros Hs Hp. unfold raise_for_status, response_json.
  rewrite Hs, Hp. eapply finishes_bind; [apply finishes_ret | cbv beta].
  apply finishes_bind_raise. eexists. apply prints_raise.
Qed.

(** A response that the operation takes for a success but whose text is
    not JSON makes it raise [JSONDecodeError]: status 200 for the read
    operations, 200 or 201 for the create operations, any status outside
    400..599 for the token request. *)
Theorem invalid_json_raises token c n t loc cfg sch props w r :
  parsed r = None ->
  (forall op,
     In op (list_operations token c n ++ [get_table_metadata token c n t]) ->
     answered server op w r -> status_code r = 200 ->
     outcome op w = Raise JSONDecodeError)
  /\ (forall op,
        In op (create_operations token c n t loc cfg sch props) ->
        answered server op w r ->
        status_code r = 200 \/ status_code r = 201 ->
        outcome op w = Raise JSONDecodeError)
  /\ (answered server get_token w r ->
      is_error_status (status_code r) = false ->
      outcome get_token w = Raise JSONDecodeError).
Proof.
  intros Hp. split; [|split].
  - intros op Hop Ha Hs. apply in_app_or in Hop.
    destruct Hop as [[<-|[<-|[<-|[]]]]|[<-|[]]];
      solve [ eapply call_ends;
                [intros r'; silence | exact Ha | now apply listed_garbled]
            | eapply call_ends;
                [intros r'; silence | exact Ha
                | now apply inspected_garbled] ].
  - intros op Hop Ha Hs. apply created_spec in Hs.
    destruct Hop as [<-|[<-|[<-|[]]]];
      (eapply call_ends;
         [intros r'; silence | exact Ha | now apply created_garbled]).
  - intros Ha Hs.
    eapply call_ends;
      [apply silent_token_continuation | exact Ha | now apply token_garbled].
Qed.

Lemma getitem_not_dict x k : is_dict x = false -> getitem x k = Raise TypeError.
Proof. destruct x; simpl; try reflexivity. discriminate. Qed.

(** A JSON body that is not an object (a list, a string, a number,
    [null]) makes the first subscript raise [TypeError], in [get_token]
    and in [get_table_metadata] alike. *)
Theorem non_object_body_raises_type_error token c n t w r j :
  parsed r = Some j -> is_dict j = false ->
  (answered server get_token w r ->
   is_error_status (status_code r) = false ->
   outcome get_token w = Raise TypeError)
  /\ (answered server (get_table_metadata token c n t) w r ->
      status_code r = 200 ->
      outcome (get_table_metadata token c n t) w = Raise TypeError).
Proof.
  intros Hp Hd. split.
  - intros Ha Hs.
    eapply call_ends; [apply silent_token_continuation | exact Ha |].
    unfold raise_for_status, response_json, sub.
    rewrite Hs, Hp. eapply finishes_bind; [apply finishes_ret | cbv beta].
    eapply finishes_bind; [apply finishes_ret | cbv beta].
    rewrite (getitem_not_dict _ _ Hd).
    apply finishes_bind_raise, finishes_lift.
  - intros Ha Hs.
    apply (get_table_metadata_ends POLARIS_HOST server token c n t w r j
             (Raise TypeError)); trivial.
    unfold report, sub. rewrite (getitem_not_dict _ _ Hd).
    apply finishes_bind_raise, finishes_lift.
Qed.

(** ** What is printed *)

Lemma listed_other_prints (r : response) :
  status_code r <> 200 ->
  prints
    (print [Lit "Status: "; Val (JInt (status_code r))] ;;
     print [Lit "Response: "; Lit (text r)] ;;
     if status_code r =? 200 then
       data <- response_json r ;;
       print [Lit "Parsed JSON: "; Val data] ;; ret data
     else ret None_)
    [status_line r; response_line r] (Ok None_).
Proof.
  intros Hs. apply Z.eqb_neq in Hs. rewrite Hs. line. line.
  - apply prints_ret.
  - reflexivity.
  - reflexivity.
Qed.

Lemma created_other_prints (r : response) msg :
  created (status_code r) = false ->
  prints
    (print [Lit "Status: "; Val (JInt (status_code r))] ;;
     print [Lit "Response: "; Lit (text r)] ;;
     if created (status_code r) then
       data <- response_json r ;;
       print [Lit msg; Val data] ;; ret data
     else ret None_)
    [status_line r; response_line r] (Ok None_).
Proof.
  intros Hs. rewrite Hs. line. line.
  - apply prints_ret.
  - reflexivity.
  - reflexivity.
Qed.

Lemma inspected_other_prints (r : response) :
  status_code r <> 200 ->
  prints
    (print [Lit "Status: "; Val (JInt (status_code r))] ;;
     if status_code r =? 200 then
       metadata <- response_json r ;; report metadata ;; ret metadata
     else print [Lit "Error: "; Lit (text r)] ;; ret None_)
    [status_line r; [Lit "Error: "; Lit (text r)]] (Ok None_).
Proof.
  intros Hs. apply Z.eqb_neq in Hs. rewrite Hs. line. line.
  - apply prints_ret.
  - reflexivity.
  - reflexivity.
Qed.

(** On a status that the operation does not take for a success, the body
    is shown as text and never parsed: after its opening line a list or
    create operation prints the status and the raw text, and
    [get_table_metadata] the status and the raw text as an error, whether
    or not the text is JSON. *)
Theorem failure_shows_raw_text token c n t loc cfg sch props w r :
  (forall op, In op (list_operations token c n) ->
     answered server op w r -> status_code r <> 200 ->
     exists opening,
       printed op w = [opening; status_line r; response_line r])
  /\ (forall op, In op (create_operations token c n t loc cfg sch props) ->
        answered server op w r ->
        status_code r <> 200 -> status_code r <> 201 ->
        exists opening,
          printed op w = [opening; status_line r; response_line r])
  /\ (answered server (get_table_metadata token c n t) w r ->
      status_code r <> 200 ->
      exists opening,
        printed (get_table_metadata token c n t) w
        = [opening; status_line r; [Lit "Error: "; Lit (text r)]]).
Proof.
  split; [|split].
  - intros op Hop Ha Hs.
    destruct Hop as [<-|[<-|[<-|[]]]]; eexists;
      (eapply call_printed;
         [intros r'; silence | exact Ha | now apply listed_other_prints]).
  - intros op Hop Ha H200 H201.
    assert (Hc : created (status_code r) = false).
    { destruct (created (status_code r)) eqn:E; [|reflexivity].
      apply created_spec in E. tauto. }
    destruct Hop as [<-|[<-|[<-|[]]]]; eexists;
      (eapply call_printed;
         [intros r'; silence | exact Ha | now apply created_other_prints]).
  - intros Ha Hs. eexists.
    eapply call_printed;
      [intros r'; silence | exact Ha | now apply inspected_other_prints].
Qed.

(** A successful [get_token] prints the token it returns, in clear, right
    after its opening line. *)
Theorem token_is_printed w r d v :
  answered server get_token w r ->
  is_error_status (status_code r) = false ->
  parsed r = Some (JDict d) -> lookup "access_token" d = Some v ->
  printed get_token w
  = [[Lit "Getting authentication token..."]; [Lit "Token: "; Val v]].
Proof.
  intros Ha Hs Hp Hv.
  eapply call_printed; [apply silent_token_continuation | exact Ha |].
  unfold raise_for_status, response_json, sub. rewrite Hs, Hp.
  eapply prints_bind_eq; [apply prints_ret | cbv beta | ].
  eapply prints_bind_eq; [apply prints_ret | cbv beta | ].
  simpl getitem. rewrite Hv. value. line.
  - apply prints_ret.
  - reflexivity.
  - reflexivity.
  - reflexivity.
  - reflexivity.
Qed.

(** ** The report, in more detail *)

Lemma not_iterable_len x : iterable x = false -> len x = Raise TypeError.
Proof. destruct x; simpl; try reflexivity; discriminate. Qed.

(** When [schemas] is not a list.  A value that cannot be iterated (a
    number, a boolean, [null]) raises [TypeError] at [len]; a value whose
    first item is not an object raises [TypeError] at the first schema, and
    that is the case of every non-empty object or string, whose items are
    keys or characters. *)
Theorem schemas_not_a_list token c n t w r body :
  answered server (get_table_metadata token c n t) w r ->
  status_code r = 200 -> parsed r = Some body ->
  has "metadata" body = true ->
  has "current-schema-id" (field "metadata" body) = true ->
  has "schemas" (field "metadata" body) = true ->
  let schemas := field "schemas" (field "metadata" body) in
  (iterable schemas = false ->
   outcome (get_table_metadata token c n t) w = Raise TypeError)
  /\ (forall first rest,
        iter schemas = Ok (first :: rest) -> is_dict first = false ->
        outcome (get_table_metadata token c n t) w = Raise TypeError).
Proof.
  intros Ha Hs Hp Hm Hc Hsch schemas. split.
  - intros Hi.
    apply (get_table_metadata_ends POLARIS_HOST server token c n t w r body
             (Raise TypeError)); trivial.
    unfold report, sub, len_. rewrite !(has_getitem _ _ Hm).
    pass. rewrite (has_getitem _ _ Hc). pass. pass.
    pass. rewrite (has_getitem _ _ Hsch). pass.
    fold schemas. rewrite (not_iterable_len _ Hi).
    apply finishes_bind_raise, finishes_lift.
  - intros first rest Hit Hd.
    destruct (iter_items _ _ Hit) as [Hi _].
    apply (get_table_metadata_ends POLARIS_HOST server token c n t w r body
             (Raise TypeError)); trivial.
    unfold report, sub, len_, iter_. rewrite !(has_getitem _ _ Hm).
    pass. rewrite (has_getitem _ _ Hc). pass. pass.
    pass. rewrite (has_getitem _ _ Hsch). pass.
    fold schemas. rewrite (iterable_len _ Hi). pass. pass.
    pass. rewrite (has_getitem _ _ Hsch). pass.
    fold schemas. rewrite Hit. pass.
    apply finishes_bind_raise.
    unfold enumerate. cbn [enumerate_from for_].
    apply finishes_bind_raise.
    unfold schema_body, sub. rewrite (getitem_not_dict _ _ Hd).
    apply finishes_bind_raise, finishes_lift.
Qed.

Lemma report_upto body pre s post :
  schemas_ok body = true ->
  has "snapshots" (field "metadata" body) = true ->
  has "current-snapshot-id" (field "metadata" body) = true ->
  iter (field "snapshots" (field "metadata" body))
  = Ok (pre ++ s :: post)%list ->
  forallb snapshot_ok pre = true ->
  lacks "snapshot-id" s = true ->
  prints (report body) (report_lines_upto body pre)
    (Raise (KeyError "snapshot-id")).
Proof.
  unfold schemas_ok. cbv zeta. rewrite !andb_true_iff.
  intros ((((Hm & Hc) & Hs) & Hi) & Hall) Hn Hcur Hit Hpre Hl.
  destruct (iter_items _ _ Hit) as [Hin _].
  unfold report, sub, len_, iter_.
  rewrite !(has_getitem _ _ Hm).
  value. rewrite (has_getitem _ _ Hc). value. line.
  value. rewrite (has_getitem _ _ Hs). value.
  rewrite (iterable_len _ Hi). value. line.
  value. rewrite (has_getitem _ _ Hs). value.
  rewrite (iterable_iter _ Hi). value.
  eapply prints_bind_eq; [apply schemas_loop_ok, Hall | cbv beta | ].
  value. rewrite (has_getitem _ _ Hn). value.
  value. rewrite (has_getitem _ _ Hcur). value. line.
  rewrite (iterable_len _ Hin). value. line.
  rewrite Hit. value.
  apply (prints_for_raise _
           (snapshot_summary (field "current-snapshot-id"
                                (field "metadata" body)))
           pre s post []).
  { intros y Hy. apply snapshot_body_ok.
    rewrite forallb_forall in Hpre. now apply Hpre. }
  { unfold snapshot_body, sub. rewrite (lacks_getitem _ _ Hl).
    apply prints_bind_raise, prints_lift. }
  all: try reflexivity.
  unfold report_lines_upto, current_snapshot_id_of. simpl.
  now rewrite app_nil_r.
Qed.

Lemma inspected_fault_prints (r : response) body out e :
  status_code r = 200 -> parsed r = Some body ->
  prints (report body) out (Raise e) ->
  prints
    (print [Lit "Status: "; Val (JInt (status_code r))] ;;
     if status_code r =? 200 then
       metadata <- response_json r ;; report metadata ;; ret metadata
     else print [Lit "Error: "; Lit (text r)] ;; ret None_)
    (status_line r :: out) (Raise e).
Proof.
  intros Hs Hp Hr. line. rewrite Hs. simpl.
  unfold response_json. rewrite Hp.
  eapply prints_bind_eq; [apply prints_ret | cbv beta | ].
  apply prints_bind_raise, Hr.
  - reflexivity.
  - reflexivity.
Qed.

Lemma report_lines_upto_counts body pre :
  count is_schema_header (report_lines_upto body pre)
  = List.length (schemas_of body)
  /\ count is_snapshot_header (report_lines_upto body pre) = List.length pre.
Proof.
  unfold report_lines_upto. rewrite !count_app.
  rewrite (count_concat_map is_schema_header (fun _ => true) schema_summary),
    (count_concat_map is_snapshot_header (fun _ => false) schema_summary),
    (count_concat_map is_schema_header (fun _ => false)
       (snapshot_summary (current_snapshot_id_of body))),
    (count_concat_map is_snapshot_header (fun _ => true)
       (snapshot_summary (current_snapshot_id_of body))).
  - rewrite !count_all, !count_nobody.
    unfold enumerate. rewrite length_enumerate_from.
    split; simpl; lia.
  - intros s. apply snapshot_summary_counts.
  - intros s. apply snapshot_summary_counts.
  - intros p. apply schema_summary_no_snapshot.
  - intros p. apply schema_summary_headers.
Qed.

(** A fault does not take back what was printed.  When a snapshot has no
    [snapshot-id], the operation raises after having printed the whole
    report up to that snapshot: every schema summary and the summaries of
    the snapshots before it, and nothing of the faulty one or of those
    after it. *)
Theorem report_printed_up_to_fault token c n t w r body pre s post :
  answered server (get_table_metadata token c n t) w r ->
  status_code r = 200 -> parsed r = Some body ->
  schemas_ok body = true ->
  has "snapshots" (field "metadata" body) = true ->
  has "current-snapshot-id" (field "metadata" body) = true ->
  iter (field "snapshots" (field "metadata" body))
  = Ok (pre ++ s :: post)%list ->
  forallb snapshot_ok pre = true ->
  lacks "snapshot-id" s = true ->
  let out := printed (get_table_metadata token c n t) w in
  outcome (get_table_metadata token c n t) w = Raise (KeyError "snapshot-id")
  /\ out = [Lit NL; Lit "Getting metadata for table '"; Lit t; Lit "'..."]
           :: status_line r :: report_lines_upto body pre
  /\ count is_schema_header out = List.length (schemas_of body)
  /\ count is_snapshot_header out = List.length pre.
Proof.
  intros Ha Hs Hp Hok Hn Hcur Hit Hpre Hl out.
  pose proof (report_upto body pre s post Hok Hn Hcur Hit Hpre Hl) as Hr.
  pose proof (inspected_fault_prints r body _ _ Hs Hp Hr) as Hk.
  assert (Hout : out = [Lit NL; Lit "Getting metadata for table '"; Lit t;
                        Lit "'..."]
                       :: status_line r :: report_lines_upto body pre).
  { unfold out. eapply call_printed; [| exact Ha | exact Hk].
    intros r'. silence. }
  split; [|split; [exact Hout|]].
  - eapply call_outcome; [| exact Ha | exact Hk]. intros r'. silence.
  - rewrite Hout.
    change (?a :: ?b :: report_lines_upto body pre)
      with ([a; b] ++ report_lines_upto body pre)%list.
    rewrite !count_app. apply report_lines_upto_counts.
Qed.

Lemma filter_concat_map {A B} (p : B -> bool) (f : A -> list B)
    (g : A -> list B) xs :
  (forall x, filter p (f x) = g x) ->
  filter p (List.concat (map f xs)) = List.concat (map g xs).
Proof.
  intros H. induction xs as [|x xs IH]; simpl; [reflexivity|].
  now rewrite filter_app, H, IH.
Qed.

Lemma concat_nils {A B} (xs : list A) :
  List.concat (map (fun _ => @nil B) xs) = [].
Proof. induction xs; simpl; auto. Qed.

Lemma filter_map_none {A B} (p : B -> bool) (g : A -> B) xs :
  (forall x, p (g x) = false) -> filter p (map g xs) = [].
Proof.
  intros H. induction xs as [|x xs IH]; simpl; [reflexivity|].
  now rewrite H.
Qed.

Lemma nth_error_enumerate_from {A} (xs : list A) i k x :
  nth_error xs k = Some x ->
  nth_error (enumerate_from i xs) k = Some (i + Z.of_nat k, x).
Proof.
  revert i k. induction xs as [|y xs IH]; intros i [|k] H;
    try discriminate.
  - injection H as ->. simpl. now rewrite Z.add_0_r.
  - simpl in *. rewrite (IH _ _ H). do 2 f_equal. lia.
Qed.

Lemma schema_summary_filter p :
  filter is_schema_header (schema_summary p)
  = [schema_header (fst p) (snd p)]
  /\ filter is_snapshot_header (schema_summary p) = [].
Proof.
  unfold schema_summary. simpl. rewrite !filter_map_none; auto.
Qed.

Lemma snapshot_summary_filter current s :
  filter is_schema_header (snapshot_summary current s) = []
  /\ filter is_snapshot_header (snapshot_summary current s)
     = [snapshot_header s].
Proof.
  unfold snapshot_summary. now destruct (is_current current s).
Qed.

Lemma report_lines_headers body :
  filter is_schema_header (report_lines body)
  = map (fun p => schema_header (fst p) (snd p)) (enumerate (schemas_of body))
  /\ filter is_snapshot_header (report_lines body)
     = map snapshot_header (snapshots_of body).
Proof.
  unfold report_lines. rewrite !filter_app.
  rewrite
    (filter_concat_map is_schema_header schema_summary
       (fun p => [schema_header (fst p) (snd p)])),
    (filter_concat_map is_snapshot_header schema_summary (fun _ => [])),
    (filter_concat_map is_schema_header
       (snapshot_summary (current_snapshot_id_of body)) (fun _ => [])),
    (filter_concat_map is_snapshot_header
       (snapshot_summary (current_snapshot_id_of body))
       (fun s => [snapshot_header s])).
  - rewrite !concat_nils, !concat_singletons. simpl.
    now rewrite app_nil_r.
  - intros s. apply snapshot_summary_filter.
  - intros s. apply snapshot_summary_filter.
  - intros p. apply schema_summary_filter.
  - intros p. apply schema_summary_filter.
Qed.

(** The summaries follow the order of the body.  On a 200 response of the
    expected shape, the schema headers printed are those of the schemas in
    order, numbered from 0 (the schema at position [k] is announced as
    "Schema k" with its own id, whatever that id is), and the snapshot
    headers are those of the snapshots in order. *)
Theorem summaries_in_body_order token c n t w r body :
  answered server (get_table_metadata token c n t) w r ->
  status_code r = 200 -> parsed r = Some body -> metadata_ok body = true ->
  let out := printed (get_table_metadata token c n t) w in
  (forall k s,
     nth_error (schemas_of body) k = Some s ->
     nth_error (filter is_schema_header out) k
     = Some (schema_header (Z.of_nat k) s))
  /\ filter is_snapshot_header out = map snapshot_header (snapshots_of body).
Proof.
  intros Ha Hs Hp Hok out.
  assert (Hout : out = ([[Lit NL; Lit "Getting metadata for table '"; Lit t;
                          Lit "'..."];
                         [Lit "Status: "; Val (JInt 200)]]
                        ++ report_lines body)%list).
  { unfold out.
    now rewrite (get_table_metadata_printed POLARIS_HOST server
                   token c n t w r body). }
  destruct (report_lines_headers body) as [Hsch Hsn].
  split.
  - intros k s Hk. rewrite Hout, filter_app.
    unfold fstring in *. rewrite Hsch. simpl.
    rewrite nth_error_map. unfold enumerate.
    now rewrite (nth_error_enumerate_from _ 0 _ _ Hk).
  - rewrite Hout, filter_app. unfold fstring in *. now rewrite Hsn.
Qed.

(** ** The entry sequence when something raises *)

Lemma run_pair_raise {A} (m : M A) w e :
  outcome m w = Raise e -> m w = (fst (m w), Raise e).
Proof. unfold outcome. intros <-. apply surjective_pairing. Qed.

Lemma get_token_stdout w :
  stdout (fst (get_token w)) = (stdout w ++ printed get_token w)%list.
Proof. apply call_stdout. apply silent_token_continuation. Qed.

Lemma list_operation_stdout op token c n w :
  In op (list_operations token c n) ->
  stdout (fst (op w)) = (stdout w ++ printed op w)%list.
Proof.
  intros [<-|[<-|[<-|[]]]]; apply call_stdout; intros r; silence.
Qed.

Lemma get_table_metadata_stdout token c n t w :
  stdout (fst (get_table_metadata token c n t w))
  = (stdout w ++ printed (get_table_metadata token c n t) w)%list.
Proof. apply call_stdout. intros r. silence. Qed.

(** [main] lets no exception out: whatever the server does, it ends
    normally.  When [get_token] raises (an HTTP error status, a refused
    connection, a body without [access_token]), the run stops there: the
    token request is the only request sent, and the last line printed is
    the error. *)
Theorem authentication_failure_ends_run w :
  outcome main w = Ok tt
  /\ forall e,
       outcome get_token w = Raise e ->
       issued main w = issued get_token w
       /\ printed main w = (printed get_token w ++ [error_line e])%list.
Proof.
  split.
  - unfold outcome, main, try_except.
    match goal with
    | |- snd (match ?b w with _ => _ end) = _ => destruct (b w) as [w' [[]|e]]
    end; reflexivity.
  - intros e He.
    pose proof (run_pair_raise _ _ _ He) as E1.
    pose proof (get_token_sent POLARIS_HOST CLIENT_ID CLIENT_SECRET server w)
      as S1.
    pose proof (get_token_stdout w) as P1.
    assert (Hrun : main w
                   = ({| sent := sent (fst (get_token w));
                         stdout := stdout (fst (get_token w))
                                   ++ [error_line e] |}, Ok tt)).
    { unfold main, try_except, bind. rewrite E1. reflexivity. }
    split.
    + unfold issued at 1. rewrite Hrun. simpl. rewrite S1.
      apply skipn_length_app.
    + unfold printed at 1. rewrite Hrun. simpl. rewrite P1.
      rewrite <- app_assoc. apply skipn_length_app.
Qed.

(** After the token, the first call that raises ends the sequence (a 200
    response that is not JSON, a refused connection, a fault in the
    traversal of the metadata): the calls after it are not issued, and the
    last line printed is the error.  This is the other side of the
    sequence going on after a status other than 200. *)
Theorem main_stops_at_first_fault w token e :
  let c := "polaris4" in
  let n := "polaris4_namespace" in
  let t := "customers" in
  let w1 := fst (get_token w) in
  let w2 := fst (list_catalogs token w1) in
  let w3 := fst (list_namespaces token c w2) in
  let w4 := fst (list_tables token c n w3) in
  outcome get_token w = Ok token ->
  (outcome (list_catalogs token) w1 = Raise e ->
   issued main w
   = (issued get_token w ++ issued (list_catalogs token) w1)%list
   /\ printed main w
      = (printed get_token w ++ printed (list_catalogs token) w1
         ++ [error_line e])%list)
  /\ (forall v2,
        outcome (list_catalogs token) w1 = Ok v2 ->
        outcome (list_namespaces token c) w2 = Raise e ->
        issued main w
        = (issued get_token w ++ issued (list_catalogs token) w1
           ++ issued (list_namespaces token c) w2)%list
        /\ printed main w
           = (printed get_token w ++ printed (list_catalogs token) w1
              ++ printed (list_namespaces token c) w2
              ++ [error_line e])%list)
  /\ (forall v2 v3,
        outcome (list_catalogs token) w1 = Ok v2 ->
        outcome (list_namespaces token c) w2 = Ok v3 ->
        outcome (list_tables token c n) w3 = Raise e ->
        issued main w
        = (issued get_token w ++ issued (list_catalogs token) w1
           ++ issued (list_namespaces token c) w2
           ++ issued (list_tables token c n) w3)%list
        /\ printed main w
           = (printed get_token w ++ printed (list_catalogs token) w1
              ++ printed (list_namespaces token c) w2
              ++ printed (list_tables token c n) w3
              ++ [error_line e])%list)
  /\ (forall v2 v3 v4,
        outcome (list_catalogs token) w1 = Ok v2 ->
        outcome (list_namespaces token c) w2 = Ok v3 ->
        outcome (list_tables token c n) w3 = Ok v4 ->
        outcome (get_table_metadata token c n t) w4 = Raise e ->
        issued main w
        = (issued get_token w ++ issued (list_catalogs token) w1
           ++ issued (list_namespaces token c) w2
           ++ issued (list_tables token c n) w3
           ++ issued (get_table_metadata token c n t) w4)%list
        /\ printed main w
           = (printed get_token w ++ printed (list_catalogs token) w1
              ++ printed (list_namespaces token c) w2
              ++ printed (list_tables token c n) w3
              ++ printed (get_table_metadata token c n t) w4
              ++ [error_line e])%list).
Proof.
  intros c n t w1 w2 w3 w4 H1.
  assert (L2 : In (list_catalogs token) (list_operations token c n))
    by (now left).
  assert (L3 : In (list_namespaces token c) (list_operations token c n))
    by (right; now left).
  assert (L4 : In (list_tables token c n) (list_operations token c n))
    by (right; right; now left).
  pose proof (run_pair _ _ _ H1) as E1.
  pose proof (get_token_sent POLARIS_HOST CLIENT_ID CLIENT_SECRET server w)
    as S1.
  pose proof (get_token_stdout w) as P1.
  pose proof (list_operation_sent POLARIS_HOST server _ _ _ _ w1 L2) as S2.
  pose proof (list_operation_stdout _ _ _ _ w1 L2) as P2.
  pose proof (list_operation_sent POLARIS_HOST server _ _ _ _ w2 L3) as S3.
  pose proof (list_operation_stdout _ _ _ _ w2 L3) as P3.
  pose proof (list_operation_sent POLARIS_HOST server _ _ _ _ w3 L4) as S4.
  pose proof (list_operation_stdout _ _ _ _ w3 L4) as P4.
  pose proof (get_table_metadata_sent POLARIS_HOST server token c n t w4)
    as S5.
  pose proof (get_table_metadata_stdout token c n t w4) as P5.
  fold w1 in E1, S1, P1. fold w2 in S2, P2. fold w3 in S3, P3.
  fold w4 in S4, P4.
  split; [|split; [|split]].
  - intros O2. pose proof (run_pair_raise _ _ _ O2) as E2. fold w2 in E2.
    assert (Hrun : main w
                   = ({| sent := sent w2;
                         stdout := stdout w2 ++ [error_line e] |}, Ok tt)).
    { unfold main, try_except, bind. fold c n t.
      rewrite E1. cbv beta iota. rewrite E2. reflexivity. }
    split.
    + unfold issued at 1. rewrite Hrun. simpl. rewrite S2, S1.
      rewrite <- !app_assoc. apply skipn_length_app.
    + unfold printed at 1. rewrite Hrun. simpl. rewrite P2, P1.
      rewrite <- !app_assoc. apply skipn_length_app.
  - intros v2 O2 O3.
    pose proof (run_pair _ _ _ O2) as E2. fold w2 in E2.
    pose proof (run_pair_raise _ _ _ O3) as E3. fold w3 in E3.
    assert (Hrun : main w
                   = ({| sent := sent w3;
                         stdout := stdout w3 ++ [error_line e] |}, Ok tt)).
    { unfold main, try_except, bind. fold c n t.
      rewrite E1. cbv beta iota. rewrite E2. cbv beta iota.
      rewrite E3. reflexivity. }
    split.
    + unfold issued at 1. rewrite Hrun. simpl. rewrite S3, S2, S1.
      rewrite <- !app_assoc. apply skipn_length_app.
    + unfold printed at 1. rewrite Hrun. simpl. rewrite P3, P2, P1.
      rewrite <- !app_assoc. apply skipn_length_app.
  - intros v2 v3 O2 O3 O4.
    pose proof (run_pair _ _ _ O2) as E2. fold w2 in E2.
    pose proof (run_pair _ _ _ O3) as E3. fold w3 in E3.
    pose proof (run_pair_raise _ _ _ O4) as E4. fold w4 in E4.
    assert (Hrun : main w
                   = ({| sent := sent w4;
                         stdout := stdout w4 ++ [error_line e] |}, Ok tt)).
    { unfold main, try_except, bind. fold c n t.
      rewrite E1. cbv beta iota. rewrite E2. cbv beta iota.
      rewrite E3. cbv beta iota. rewrite E4. reflexivity. }
    split.
    + unfold issued at 1. rewrite Hrun. simpl. rewrite S4, S3, S2, S1.
      rewrite <- !app_assoc. apply skipn_length_app.
    + unfold printed at 1. rewrite Hrun. simpl. rewrite P4, P3, P2, P1.
      rewrite <- !app_assoc. apply skipn_length_app.
  - intros v2 v3 v4 O2 O3 O4 O5.
    pose proof (run_pair _ _ _ O2) as E2. fold w2 in E2.
    pose proof (run_pair _ _ _ O3) as E3. fold w3 in E3.
    pose proof (run_pair _ _ _ O4) as E4. fold w4 in E4.
    pose proof (run_pair_raise _ _ _ O5) as E5.
    set (w5 := fst (get_table_metadata token c n t w4)) in *.
    assert (Hrun : main w
                   = ({| sent := sent w5;
                         stdout := stdout w5 ++ [error_line e] |}, Ok tt)).
    { unfold main, try_except, bind. fold c n t.
      rewrite E1. cbv beta iota. rewrite E2. cbv beta iota.
      rewrite E3. cbv beta iota. rewrite E4. cbv beta iota.
      rewrite E5. reflexivity. }
    split.
    + unfold issued at 1. rewrite Hrun. simpl. rewrite S5, S4, S3, S2, S1.
      rewrite <- !app_assoc. apply skipn_length_app.
    + unfold printed at 1. rewrite Hrun. simpl. rewrite P5, P4, P3, P2, P1.
      rewrite <- !app_assoc. apply skipn_length_app.
Qed.

End Further.

(** * Concrete runs of the further properties *)


(** The catalog list answers 200 with a page that is not JSON. *)
Lemma invalid_json_raises_witness :
  let op := list_catalogs HOST (always garbled) TOKEN in
  parsed garbled = None
  /\ outcome op empty_world = Raise JSONDecodeError.
Proof.
  intros op. split; [reflexivity|].
  refine (proj1 (invalid_json_raises HOST ADMIN ADMIN (always garbled)
                   TOKEN CATALOG NAMESPACE TABLE JNull JNull JNull JNull
                   empty_world garbled _) op _ _ _).
  - reflexivity.
  - left. reflexivity.
  - eexists. split; cbv; reflexivity.
  - reflexivity.
Defined.

(** The token endpoint answers with a JSON list. *)
Lemma non_object_body_raises_type_error_witness :
  let r := json_response 200 (JList [JStr "abc123"]) in
  is_dict (JList [JStr "abc123"]) = false
  /\ outcome (get_token HOST ADMIN ADMIN (always r)) empty_world
     = Raise TypeError.
Proof.
  intros r. split; [reflexivity|].
  refine (proj1 (non_object_body_raises_type_error HOST ADMIN ADMIN
                   (always r) TOKEN CATALOG NAMESPACE TABLE empty_world r
                   (JList [JStr "abc123"]) _ _) _ _).
  - reflexivity.
  - reflexivity.
  - eexists. split; cbv; reflexivity.
  - reflexivity.
Defined.

(** The catalog list answers 404. *)
Lemma failure_shows_raw_text_witness :
  let op := list_catalogs HOST (always not_found) TOKEN in
  status_code not_found <> 200
  /\ exists opening,
       printed op empty_world
       = [opening; [Lit "Status: "; Val (JInt 404)];
          [Lit "Response: "; Lit "Not Found"]].
Proof.
  intros op.
  assert (H : status_code not_found <> 200) by (intros E; discriminate E).
  split; [exact H|].
  refine (proj1 (failure_shows_raw_text HOST (always not_found)
                   TOKEN CATALOG NAMESPACE TABLE JNull JNull JNull JNull
                   empty_world not_found) op _ _ H).
  - left. reflexivity.
  - eexists. split; cbv; reflexivity.
Defined.

Lemma token_is_printed_witness :
  let r := json_response 200 token_body in
  lookup "access_token" [("access_token", JStr "abc123")]
  = Some (JStr "abc123")
  /\ printed (get_token HOST ADMIN ADMIN (always r)) empty_world
     = [[Lit "Getting authentication token..."];
        [Lit "Token: "; Val (JStr "abc123")]].
Proof.
  intros r. split; [reflexivity|].
  apply (token_is_printed HOST ADMIN ADMIN (always r) empty_world r
           [("access_token", JStr "abc123")] (JStr "abc123")).
  - eexists. split; cbv; reflexivity.
  - reflexivity.
  - reflexivity.
  - reflexivity.
Defined.

(** [schemas] is an object keyed by schema id. *)
Lemma schemas_not_a_list_witness :
  let r := json_response 200 keyed_schemas in
  let op := get_table_metadata HOST (always r) TOKEN CATALOG NAMESPACE TABLE in
  iter (field "schemas" (field "metadata" keyed_schemas)) = Ok [JStr "0"]
  /\ outcome op empty_world = Raise TypeError.
Proof.
  intros r op. split; [reflexivity|].
  refine (proj2 (schemas_not_a_list HOST (always r) TOKEN CATALOG NAMESPACE
                   TABLE empty_world r keyed_schemas _ _ _ _ _ _)
            (JStr "0") [] _ _).
  - eexists. split; cbv; reflexivity.
  - reflexivity.
  - reflexivity.
  - reflexivity.
  - reflexivity.
  - reflexivity.
  - reflexivity.
  - reflexivity.
Defined.

(** The second snapshot has no id: the first one is reported in full. *)
Lemma report_printed_up_to_fault_witness :
  let r := json_response 200 broken_metadata in
  let op := get_table_metadata HOST (always r) TOKEN CATALOG NAMESPACE TABLE in
  lacks "snapshot-id" (JDict [("timestamp-ms", JInt 1600000000000)]) = true
  /\ count is_schema_header (printed op empty_world) = 2%nat
  /\ count is_snapshot_header (printed op empty_world) = 1%nat.
Proof.
  intros r op. split; [reflexivity|].
  refine (proj2 (proj2 (report_printed_up_to_fault HOST (always r) TOKEN
                          CATALOG NAMESPACE TABLE empty_world r
                          broken_metadata [snapshot100]
                          (JDict [("timestamp-ms", JInt 1600000000000)]) []
                          _ _ _ _ _ _ _ _ _))).
  - eexists. split; cbv; reflexivity.
  - reflexivity.
  - reflexivity.
  - reflexivity.
  - reflexivity.
  - reflexivity.
  - reflexivity.
  - reflexivity.
  - reflexivity.
Defined.

(** The second schema of the sample body is announced as schema 1. *)
Lemma summaries_in_body_order_witness :
  let r := json_response 200 sample_metadata in
  let op := get_table_metadata HOST (always r) TOKEN CATALOG NAMESPACE TABLE in
  nth_error (schemas_of sample_metadata) 1 = Some schema1
  /\ nth_error (filter is_schema_header (printed op empty_world)) 1
     = Some (schema_header 1 schema1).
Proof.
  intros r op. split; [reflexivity|].
  refine (proj1 (summaries_in_body_order HOST (always r) TOKEN CATALOG
                   NAMESPACE TABLE empty_world r sample_metadata _ _ _ _)
            1%nat schema1 _).
  - eexists. split; cbv; reflexivity.
  - reflexivity.
  - reflexivity.
  - reflexivity.
  - reflexivity.
Defined.

(** The token endpoint answers 401: one request, then the error line. *)
Lemma authentication_failure_ends_run_witness :
  let run := main HOST ADMIN ADMIN (always unauthorized) in
  outcome (get_token HOST ADMIN ADMIN (always unauthorized)) empty_world
  = Raise (HTTPError 401)
  /\ List.length (issued run empty_world) = 1%nat
  /\ printed run empty_world
     = [[Lit "Getting authentication token..."];
        error_line (HTTPError 401)].
Proof.
  intros run. split; [reflexivity|].
  pose proof (proj2 (authentication_failure_ends_run HOST ADMIN ADMIN
                       (always unauthorized) empty_world)
                (HTTPError 401) eq_refl) as [Hi Hp].
  split.
  - unfold run. rewrite Hi. reflexivity.
  - unfold run. rewrite Hp. reflexivity.
Defined.

(** The catalog list is not JSON: the run stops after two requests. *)
Lemma main_stops_at_first_fault_witness :
  let run := main HOST ADMIN ADMIN (scripted garbled_catalogs) in
  outcome (get_token HOST ADMIN ADMIN (scripted garbled_catalogs))
    empty_world = Ok TOKEN
  /\ List.length (issued run empty_world) = 2%nat.
Proof.
  intros run. split; [reflexivity|].
  pose proof (main_stops_at_first_fault HOST ADMIN ADMIN
                (scripted garbled_catalogs) empty_world TOKEN
                JSONDecodeError) as H.
  cbv zeta in H. destruct (proj1 (H eq_refl) eq_refl) as [Hi _].
  unfold run. rewrite Hi. vm_compute. reflexivity.
Defined.

(** * The operations, response by response *)

Section CallResponds.

Context {A : Type}.
Variable server : list request -> result response.
Variable l0 : fstring.
Variable rq : request.
Variable k : response -> M A.
Hypothesis silent_k : forall r, silent (k r).

Local Abbreviation call := (print l0 ;; (r <- send server rq ;; k r)).

Lemma call_responds (P : response -> result A -> list fstring -> Prop) :
  (forall w r, answered server call w r ->
               P r (outcome call w) (printed call w)) ->
  responds server call P.
Proof.
  intros H w. exists rq.
  split; [apply (call_issued server l0 rq k silent_k)|].
  intros r Hr. apply H. exists rq.
  split; [apply (call_issued server l0 rq k silent_k) | exact Hr].
Qed.

End CallResponds.

Section Responses.

Variable POLARIS_HOST : string.
Variable CLIENT_ID : string.
Variable CLIENT_SECRET : string.
Variable server : list request -> result response.

Local Abbreviation get_token :=
  (get_token POLARIS_HOST CLIENT_ID CLIENT_SECRET server).
Local Abbreviation get_table_metadata :=
  (get_table_metadata POLARIS_HOST server).
Local Abbreviation list_operations := (list_operations POLARIS_HOST server).
Local Abbreviation create_operations :=
  (create_operations POLARIS_HOST server).


(** C4, as the code has it.  Each of the three create operations sends one
    request, and for every HTTP response to it: status 200 or 201 with a
    JSON body returns the parsed body; status 200 or 201 with a text that
    is not JSON (an empty body, for one) raises [JSONDecodeError]; any
    other status returns [None]. *)
Theorem create_operations_status token c n t loc cfg sch props :
  Forall
    (fun op =>
       responds server op
         (fun r o _ =>
            (status_code r = 200 \/ status_code r = 201 ->
             forall j, parsed r = Some j -> o = Ok j)
            /\ (status_code r = 200 \/ status_code r = 201 ->
                parsed r = None -> o = Raise JSONDecodeError)
            /\ (status_code r <> 200 -> status_code r <> 201 ->
                o = Ok None_)))
    (create_operations token c n t loc cfg sch props).
Proof.
  repeat constructor;
    (apply call_responds; [intros r; silence|]);
    intros w r Ha; (split; [|split]).
  all: try (intros Hs%created_spec j Hp;
            eapply call_ends;
              [intros r'; silence | exact Ha | now apply created_ok]).
  all: try (intros Hs%created_spec Hp;
            eapply call_ends;
              [intros r'; silence | exact Ha | now apply created_garbled]).
  all: intros H200 H201;
    assert (Hc : created (status_code r) = false)
      by (destruct (created (status_code r)) eqn:E;
          [apply created_spec in E; tauto | reflexivity]);
    eapply call_ends;
      [intros r'; silence | exact Ha | now apply created_other].
Qed.

(** After [raise_for_status] has let the response through, [get_token]
    ends with the token or with a fault of the body, never with an HTTP
    error. *)
Lemma token_accepted (r : response) :
  is_error_status (status_code r) = false ->
  exists res,
    finishes
      (raise_for_status r ;;
       body <- response_json r ;;
       token <- sub body "access_token" ;;
       print [Lit "Token: "; Val token] ;; ret token)
      res
    /\ forall s, res <> Raise (HTTPError s).
Proof.
  intros Hs. unfold raise_for_status, response_json, sub. rewrite Hs.
  destruct (parsed r) as [j|].
  - destruct (getitem j "access_token") as [v|e] eqn:Hg.
    + exists (Ok v). split; [|discriminate].
      eapply finishes_bind; [apply finishes_ret | cbv beta].
      eapply finishes_bind; [apply finishes_ret | cbv beta].
      rewrite Hg. pass. pass. apply finishes_ret.
    + exists (Raise e). split.
      * eapply finishes_bind; [apply finishes_ret | cbv beta].
        eapply finishes_bind; [apply finishes_ret | cbv beta].
        rewrite Hg. apply finishes_bind_raise, finishes_lift.
      * intros s E. injection E as ->.
        destruct j; simpl in Hg; try discriminate.
        destruct (lookup "access_token" d); discriminate.
  - exists (Raise JSONDecodeError). split; [|discriminate].
    eapply finishes_bind; [apply finishes_ret | cbv beta].
    apply finishes_bind_raise. eexists. apply prints_raise.
Qed.

(** C6, as the code has it.  [get_token] sends one request, and for every
    HTTP response to it with an error status (400 to 599, the statuses for
    which [raise_for_status] raises) it raises that [HTTPError] at once:
    nothing is printed after the opening line and no value, [None]
    included, is returned; the same response makes every list and create
    operation return [None].  On every other status, the non-success
    statuses below 400 or from 600 on included, no HTTP error is raised:
    [get_token] goes on to parse the body. *)
Theorem get_token_raises_http_error token c n t loc cfg sch props :
  responds server get_token
    (fun r o out =>
       (is_error_status (status_code r) = true ->
        o = Raise (HTTPError (status_code r))
        /\ out = [[Lit "Getting authentication token..."]])
       /\ (is_error_status (status_code r) = false ->
           forall s, o <> Raise (HTTPError s)))
  /\ Forall
       (fun op =>
          responds server op
            (fun r o _ =>
               is_error_status (status_code r) = true -> o = Ok None_))
       (list_operations token c n
        ++ create_operations token c n t loc cfg sch props).
Proof.
  split.
  - apply call_responds; [apply silent_token_continuation|].
    intros w r Ha. split.
    + intros Hs. split.
      * eapply call_outcome;
          [apply silent_token_continuation | exact Ha
          | now apply token_refused].
      * eapply call_printed;
          [apply silent_token_continuation | exact Ha
          | now apply token_refused].
    + intros Hs s.
      destruct (token_accepted r Hs) as (res & Hres & Hne).
      erewrite call_ends;
        [apply Hne | apply silent_token_continuation | exact Ha | exact Hres].
  - apply Forall_app. split; repeat constructor;
      (apply call_responds; [intros r; silence|]);
      intros w r Ha Hs;
      destruct (error_status_not_created _ Hs) as [H200 Hcr].
    all: try (eapply call_ends;
                [intros r'; silence | exact Ha | now apply listed_other]).
    all: eapply call_ends;
      [intros r'; silence | exact Ha | now apply created_other].
Qed.

End Responses.

(** * Concrete runs, response by response *)


(** The three create operations: a 201 with a JSON body, a 409, and a 200
    with a JSON body. *)
Lemma create_operations_status_witness :
  let location := JStr "s3://my-data-bucket/warehouse" in
  let made := JDict [("name", JStr CATALOG)] in
  status_code conflict <> 200 /\ status_code conflict <> 201
  /\ outcome (create_catalog HOST (always (json_response 201 made))
                TOKEN CATALOG location (JDict [])) empty_world
     = Ok made
  /\ outcome (create_namespace HOST (always conflict)
                TOKEN CATALOG NAMESPACE None_) empty_world
     = Ok None_
  /\ outcome (create_table HOST (always (json_response 200 made))
                TOKEN CATALOG NAMESPACE TABLE schema0 None_) empty_world
     = Ok made.
Proof.
  intros location made.
  assert (H200 : status_code conflict <> 200) by (intros E; discriminate E).
  assert (H201 : status_code conflict <> 201) by (intros E; discriminate E).
  split; [exact H200|]. split; [exact H201|]. split; [|split].
  - pose proof (create_operations_status HOST
                  (always (json_response 201 made)) TOKEN CATALOG NAMESPACE
                  TABLE location (JDict []) schema0 None_) as HF.
    destruct (Forall_inv HF empty_world) as (rq & _ & Hr).
    exact (proj1 (Hr (json_response 201 made) eq_refl)
             (or_intror eq_refl) made eq_refl).
  - pose proof (create_operations_status HOST (always conflict)
                  TOKEN CATALOG NAMESPACE TABLE location (JDict []) schema0
                  None_) as HF.
    destruct (Forall_inv (Forall_inv_tail HF) empty_world)
      as (rq & _ & Hr).
    exact (proj2 (proj2 (Hr conflict eq_refl)) H200 H201).
  - pose proof (create_operations_status HOST
                  (always (json_response 200 made)) TOKEN CATALOG NAMESPACE
                  TABLE location (JDict []) schema0 None_) as HF.
    destruct (Forall_inv (Forall_inv_tail (Forall_inv_tail HF)) empty_world)
      as (rq & _ & Hr).
    exact (proj1 (Hr (json_response 200 made) eq_refl)
             (or_introl eq_refl) made eq_refl).
Defined.

(** A catalog created with status 201 and no body: the call raises. *)
Lemma create_catalog_201_empty_raises :
  let op :=
    create_catalog HOST (always created_empty) TOKEN CATALOG
      (JStr "s3://my-data-bucket/warehouse") (JDict []) in
  answered (always created_empty) op empty_world created_empty
  /\ status_code created_empty = 201
  /\ outcome op empty_world = Raise JSONDecodeError.
Proof.
  intros op. split; [eexists; split; cbv; reflexivity|].
  split; reflexivity.
Qed.

(** The token endpoint answers 401; so do the catalog list and the table
    creation. *)
Lemma get_token_raises_http_error_witness :
  is_error_status (status_code unauthorized) = true
  /\ outcome (get_token HOST ADMIN ADMIN (always unauthorized)) empty_world
     = Raise (HTTPError 401)
  /\ printed (get_token HOST ADMIN ADMIN (always unauthorized)) empty_world
     = [[Lit "Getting authentication token..."]]
  /\ outcome (list_catalogs HOST (always unauthorized) TOKEN) empty_world
     = Ok None_.
Proof.
  split; [reflexivity|].
  destruct (get_token_raises_http_error HOST ADMIN ADMIN
              (always unauthorized) TOKEN CATALOG NAMESPACE TABLE
              JNull JNull JNull JNull) as [HT HF].
  destruct (HT empty_world) as (rq & _ & Hr).
  destruct (proj1 (Hr unauthorized eq_refl) eq_refl) as [Ho Hp].
  split; [exact Ho|]. split; [exact Hp|].
  destruct (Forall_inv HF empty_world) as (rq' & _ & Hr').
  exact (Hr' unauthorized eq_refl eq_refl).
Defined.

(** The token endpoint answers 304, not a success status, with a token:
    no error is raised and the token is returned. *)
Lemma get_token_304_returns_token :
  answered (always not_modified)
    (get_token HOST ADMIN ADMIN (always not_modified)) empty_world
    not_modified
  /\ status_code not_modified = 304
  /\ outcome (get_token HOST ADMIN ADMIN (always not_modified)) empty_world
     = Ok (JStr "abc123").
Proof.
  split; [eexists; split; cbv; reflexivity|].
  split; reflexivity.
Qed.
